(** * AI insight report pipeline: collection, filtering, classification,
      summarising and report ordering

    A shallow embedding of the Python pipeline under [scripts/]:
    [collector.py] (NaverBlogCollector), [ajunews_collector.py]
    (AjunewsCollector), [multi_source_collector.py] (MultiSourceCollector),
    [analyzer.py] (PostAnalyzer) and [report_generator.py]
    (ReportGenerator), and of the length guard of [services/analyzer.py].

    Conventions.
    - A Python [str] is the list of its Unicode code points, so that [len],
      slicing and [in] count characters as Python does.
    - A Python [datetime] is its wall-clock reading in microseconds since
      0001-01-01T00:00:00 together with an optional UTC offset; a datetime
      without offset is naive.  The representable range of [datetime]
      (years 1 to 9999) is modelled where a subtraction can leave it
      ([CollectorMore.checked_cutoff_date]) and not elsewhere.
    - The network, the file system, [dateutil.parser.parse] and
      [datetime.fromisoformat] are external: they appear as section
      variables (oracles).  A call that raises is an oracle that answers
      [None] or [Raised].
    - Logging is dropped except where it tells two branches of the code
      apart. *)

From Stdlib Require Import ZArith NArith List Bool Lia String Ascii Sorted Permutation.
From stdpp Require Import gmap.
Import ListNotations.

(* ================================================================== *)
(** * Python values                                                    *)
(* ================================================================== *)

Module Py.

(** A Python string: code points in order. *)
Definition str : Type := list N.

(** ** Literals: the UTF-8 bytes of a Rocq string literal, decoded *)

Fixpoint bytes_of (s : string) : list N :=
  match s with
  | EmptyString => []
  | String c s' => N_of_ascii c :: bytes_of s'
  end.

(** [need] continuation bytes are still expected for the code point whose
    high bits are [acc]. *)
Fixpoint decode_utf8 (need : nat) (acc : N) (bs : list N) : str :=
  match bs with
  | [] => []
  | b :: bs' =>
      match need with
      | O =>
          if (b <? 128)%N then b :: decode_utf8 0 0%N bs'
          else if (b <? 224)%N then decode_utf8 1 (N.land b 31) bs'
          else if (b <? 240)%N then decode_utf8 2 (N.land b 15) bs'
          else decode_utf8 3 (N.land b 7) bs'
      | S n =>
          let acc' := (acc * 64 + N.land b 63)%N in
          match n with
          | O => acc' :: decode_utf8 0 0%N bs'
          | S _ => decode_utf8 n acc' bs'
          end
      end
  end.

Definition u8 (s : string) : str := decode_utf8 0 0%N (bytes_of s).

(** ** [len], slicing *)

Definition len (s : str) : Z := Z.of_nat (length s).

(** [l[:n]] for an integer [n]: a negative bound counts from the end. *)
Definition slice_to {A : Type} (l : list A) (n : Z) : list A :=
  if (0 <=? n)%Z then firstn (Z.to_nat n) l
  else firstn (Z.to_nat (Z.of_nat (length l) + n)) l.

(** ** Whitespace: [str.isspace] on one character, which is also the
       class [\s] of [re] on [str] patterns *)

Definition is_space (c : N) : bool :=
  ((9 <=? c) && (c <=? 13) || (28 <=? c) && (c <=? 32)
   || (c =? 133) || (c =? 160) || (c =? 5760)
   || (8192 <=? c) && (c <=? 8202)
   || (c =? 8232) || (c =? 8233) || (c =? 8239) || (c =? 8287)
   || (c =? 12288))%N.

Fixpoint lstrip (s : str) : str :=
  match s with
  | [] => []
  | c :: s' => if is_space c then lstrip s' else s
  end.

Definition rstrip (s : str) : str := rev (lstrip (rev s)).

(** [s.strip()] *)
Definition strip (s : str) : str := rstrip (lstrip s).

(** ** Substring test: [needle in hay] *)

Fixpoint startswith (hay needle : str) : bool :=
  match needle, hay with
  | [], _ => true
  | _ :: _, [] => false
  | a :: needle', b :: hay' => (a =? b)%N && startswith hay' needle'
  end.

Fixpoint contains (needle hay : str) : bool :=
  startswith hay needle
  || match hay with
     | [] => false
     | _ :: hay' => contains needle hay'
     end.

(** [a == b] on strings *)
Fixpoint str_eqb (a b : str) : bool :=
  match a, b with
  | [], [] => true
  | x :: a', y :: b' => (x =? y)%N && str_eqb a' b'
  | _, _ => false
  end.

(** [sep.join(parts)] *)
Fixpoint join (sep : str) (parts : list str) : str :=
  match parts with
  | [] => []
  | [p] => p
  | p :: rest => p ++ sep ++ join sep rest
  end.

(** ** ASCII case mapping.  [str.lower] agrees with it on every string
       made of ASCII characters and caseless scripts such as Hangul. *)

Definition ascii_lower_char (c : N) : N :=
  if ((65 <=? c) && (c <=? 90))%N then (c + 32)%N else c.

Definition ascii_lower (s : str) : str := map ascii_lower_char s.

(** ** datetime *)

Record datetime : Type := mkDatetime {
  wall : Z;                 (* microseconds since 0001-01-01T00:00:00 *)
  utcoffset : option Z      (* [None]: naive; [Some o]: aware, offset in microseconds *)
}.

Definition naive (t : Z) : datetime := mkDatetime t None.

Definition day_us : Z := 86400000000.

(** [timedelta(days=n)] in microseconds *)
Definition timedelta_days (n : Z) : Z := (n * day_us)%Z.

(** [dt.replace(tzinfo=None)] keeps the wall-clock reading. *)
Definition replace_tzinfo_none (dt : datetime) : datetime := naive (wall dt).

(** [a < b] on datetimes; [None] is the TypeError Python raises when one
    operand is naive and the other aware. *)
Definition dt_lt (a b : datetime) : option bool :=
  match utcoffset a, utcoffset b with
  | None, None => Some (wall a <? wall b)%Z
  | Some oa, Some ob => Some (wall a - oa <? wall b - ob)%Z
  | _, _ => None
  end.

(** [a - b] on datetimes, in microseconds; [None] is the TypeError for a
    naive and an aware operand. *)
Definition dt_sub (a b : datetime) : option Z :=
  match utcoffset a, utcoffset b with
  | None, None => Some (wall a - wall b)%Z
  | Some oa, Some ob => Some ((wall a - oa) - (wall b - ob))%Z
  | _, _ => None
  end.

(** [datetime.min] *)
Definition datetime_min : datetime := naive 0.

End Py.

Import Py.

Example u8_ascii : u8 "Now&Future" = [78; 111; 119; 38; 70; 117; 116; 117; 114; 101]%N.
Proof. reflexivity. Qed.

Example u8_hangul : u8 "기타" = [44592; 53440]%N.
Proof. reflexivity. Qed.

Example u8_fullwidth_ampersand : u8 "＆" = [65286]%N.
Proof. reflexivity. Qed.

Example strip_both : strip (u8 "  a b ") = u8 "a b".
Proof. reflexivity. Qed.

Example contains_yes : contains (u8 "지능") (u8 "인공지능 시대") = true.
Proof. reflexivity. Qed.

Lemma startswith_iff hay needle :
  startswith hay needle = true <-> exists rest, hay = needle ++ rest.
Proof.
  revert hay. induction needle as [|a needle IH]; intros hay.
  - destruct hay; simpl; split; eauto.
  - destruct hay as [|b hay]; simpl.
    + split; [discriminate | intros (rest & H); discriminate].
    + rewrite andb_true_iff, N.eqb_eq, IH. split.
      * intros (-> & rest & ->). eauto.
      * intros (rest & H). injection H as -> ->. eauto.
Qed.

(** [needle in hay] holds exactly when [needle] occurs in [hay]. *)
Lemma contains_iff needle hay :
  contains needle hay = true <-> exists before rest, hay = before ++ needle ++ rest.
Proof.
  induction hay as [|b hay IH].
  - cbn [contains]. rewrite orb_false_r, startswith_iff. split.
    + intros (rest & H). exists [], rest. exact H.
    + intros (before & rest & H).
      destruct before; [eauto | discriminate].
  - cbn [contains]. rewrite orb_true_iff, startswith_iff, IH. split.
    + intros [(rest & H) | (before & rest & H)].
      * exists [], rest. exact H.
      * exists (b :: before), rest. rewrite H. reflexivity.
    + intros (before & rest & H). destruct before as [|b' before].
      * left. eauto.
      * right. injection H as _ H. eauto.
Qed.

Lemma lstrip_split s :
  exists ws, s = ws ++ lstrip s /\ Forall (fun c => is_space c = true) ws.
Proof.
  induction s as [|c s (ws & Heq & Hws)]; simpl.
  - exists []. split; [reflexivity | constructor].
  - destruct (is_space c) eqn:Hc.
    + exists (c :: ws). split; [simpl; congruence | constructor; assumption].
    + exists []. split; [reflexivity | constructor].
Qed.

Lemma length_lstrip s : (length (lstrip s) <= length s)%nat.
Proof.
  induction s as [|c s IH]; simpl; [lia |].
  destruct (is_space c); simpl; lia.
Qed.

Example slice_to_negative : slice_to [1; 2; 3; 4; 5] (-2) = [1; 2; 3].
Proof. reflexivity. Qed.

(** [d.get(key, default)] on an optional field *)
Definition get {A : Type} (field : option A) (default : A) : A :=
  match field with
  | Some v => v
  | None => default
  end.

(** The result of a call that may raise. *)
Inductive outcome (A : Type) : Type :=
| Returned (a : A)
| Raised.
Arguments Returned {A} a.
Arguments Raised {A}.

(* ================================================================== *)
(** * collector.py: NaverBlogCollector                                 *)
(* ================================================================== *)

Module Collector.

(** An entry of the parsed RSS feed; every field may be absent. *)
Record FeedEntry : Type := mkEntry {
  entry_title : option str;
  entry_link : option str;
  entry_published : option str;
  entry_summary : option str
}.

(** The dict built by [_fetch_rss_feed] for one entry. *)
Record Post : Type := mkPost {
  title : str;
  link : str;
  published : str;
  summary : str
}.

(** The dict returned by [_scrape_post_detail].  Its [collected_at] stamp
    (the wall clock at the time of the call) is left out. *)
Record DetailedPost : Type := mkDetailed {
  d_title : str;
  d_link : str;
  d_published : str;
  d_content : str
}.

(** What the detail page offers after [requests.get] and BeautifulSoup:
    the text of each container that [soup.find] locates. *)
Record Page : Type := mkPage {
  se_main_container : option str;   (* div.se-main-container *)
  post_view_area : option str;      (* div#postViewArea *)
  post_view : option str            (* div.post-view *)
}.

(** [blog_config] and [collection_config], the keys the collector reads. *)
Record Config : Type := mkConfig {
  blog_max_posts : option Z;
  blog_days_lookback : option Z;
  collection_max_posts_per_source : option Z;
  collection_days_lookback : option Z
}.

Section WithEnvironment.

(** [feedparser.parse(rss_url).entries]; [Raised] when the call raises. *)
Variable feed : outcome (list FeedEntry).
(** [dateutil.parser.parse]; [None] when it raises. *)
Variable parse : str -> option datetime.
(** [datetime.now()], naive. *)
Variable now : Z.
(** [requests.get] + [raise_for_status] + BeautifulSoup on a link. *)
Variable requests_get : str -> outcome Page.

Variable config : Config.

Definition _fetch_rss_feed : list Post :=
  match feed with
  | Returned entries =>
      map (fun entry =>
             {| title := get (entry_title entry) [];
                link := get (entry_link entry) [];
                published := get (entry_published entry) [];
                summary := get (entry_summary entry) [] |})
          entries
  | Raised => []
  end.

Definition days_lookback : Z :=
  get (blog_days_lookback config) (get (collection_days_lookback config) 7%Z).

(** [reference_date if reference_date else datetime.now()] *)
Definition base_date (reference_date : option Z) : Z :=
  match reference_date with
  | Some d => d
  | None => now
  end.

Definition cutoff_date (reference_date : option Z) : Z :=
  (base_date reference_date - timedelta_days days_lookback)%Z.

(** The body of the [for post in posts] loop of [_filter_recent_posts];
    [recent_posts] is the list appended to. *)
Definition filter_step (cutoff base : Z) (recent_posts : list Post) (post : Post)
  : list Post :=
  match published post with
  | [] => recent_posts                       (* [if post['published']:] is false *)
  | _ :: _ =>
      match parse (published post) with
      | None => recent_posts ++ [post]       (* [except]: kept *)
      | Some post_date =>
          let post_date :=
            match utcoffset post_date with
            | Some _ => replace_tzinfo_none post_date
            | None => post_date
            end in
          if ((cutoff <=? wall post_date) && (wall post_date <=? base))%Z
          then recent_posts ++ [post]
          else recent_posts
      end
  end.

Definition _filter_recent_posts (posts : list Post) (reference_date : option Z)
  : list Post :=
  fold_left (filter_step (cutoff_date reference_date) (base_date reference_date))
            posts [].

(** Ordered fallback chain of [_scrape_post_detail]. *)
Definition extract_content (page : Page) (post : Post) : str :=
  let content := get (se_main_container page) [] in
  let content :=
    match content with
    | [] =>
        match post_view_area page, post_view page with
        | Some text, _ => text
        | None, Some text => text
        | None, None => content
        end
    | _ :: _ => content
    end in
  match content with
  | [] => summary post
  | _ :: _ => content
  end.

(** The dict of the [except] branch: the RSS data only. *)
Definition rss_only (post : Post) : DetailedPost :=
  {| d_title := title post; d_link := link post;
     d_published := published post; d_content := summary post |}.

Definition _scrape_post_detail (post : Post) : outcome DetailedPost :=
  match requests_get (link post) with
  | Returned page =>
      Returned {| d_title := title post; d_link := link post;
                  d_published := published post;
                  d_content := slice_to (extract_content page post) 5000 |}
  | Raised => Returned (rss_only post)
  end.

Definition max_posts : Z :=
  get (blog_max_posts config) (get (collection_max_posts_per_source config) 20%Z).

(** The body of the scraping loop of [collect_posts]. *)
Definition collect_step (detailed_posts : list DetailedPost) (post : Post)
  : list DetailedPost :=
  match _scrape_post_detail post with
  | Returned detailed_post => detailed_posts ++ [detailed_post]
  | Raised => detailed_posts                 (* [except]: [continue] *)
  end.

(** [collect_posts]; writing the JSON file is left out. *)
Definition collect_posts (reference_date : option Z) : list DetailedPost :=
  let rss_posts := _fetch_rss_feed in
  let recent_posts := _filter_recent_posts rss_posts reference_date in
  fold_left collect_step (slice_to recent_posts max_posts) [].

End WithEnvironment.

(** ** A sample environment *)

(** 2026-01-06T23:59:59, the reference date of [generate_jan6_report.py]. *)
Definition jan6 : Z := ((739622 - 1) * day_us + 86399 * 1000000)%Z.

Definition kst : Z := (9 * 3600 * 1000000)%Z.

(** What dateutil answers on the strings used below; it raises on the
    empty string and on text without a date. *)
Definition sample_parse (s : str) : option datetime :=
  if str_eqb s (u8 "Mon, 05 Jan 2026 10:00:00 +0900")
  then Some (mkDatetime ((739621 - 1) * day_us + 10 * 3600 * 1000000)%Z (Some kst))
  else if str_eqb s (u8 "Mon, 01 Dec 2025 10:00:00 +0900")
  then Some (mkDatetime ((739586 - 1) * day_us + 10 * 3600 * 1000000)%Z (Some kst))
  else if str_eqb s (u8 "2026-01-06T23:59:59")
  then Some (naive jan6)
  else if str_eqb s (u8 "2025-12-30T23:59:59")
  then Some (naive (jan6 - 7 * day_us))
  else None.

Definition default_config : Config := mkConfig None None None None.

Definition post_jan5 : Post :=
  mkPost (u8 "GPT") (u8 "https://blog.example/1")
         (u8 "Mon, 05 Jan 2026 10:00:00 +0900") (u8 "feed summary").

Definition post_dec1 : Post :=
  mkPost (u8 "old") (u8 "https://blog.example/2")
         (u8 "Mon, 01 Dec 2025 10:00:00 +0900") [].

Definition post_undated : Post :=
  mkPost (u8 "undated") (u8 "https://blog.example/3") [] (u8 "no date").

Definition post_odd_date : Post :=
  mkPost (u8 "odd") (u8 "https://blog.example/4") (u8 "someday") [].

Definition post_at_cutoff : Post :=
  mkPost (u8 "edge") (u8 "https://blog.example/5") (u8 "2025-12-30T23:59:59") [].

Definition entry_jan5 : FeedEntry :=
  mkEntry (Some (u8 "GPT")) (Some (u8 "https://blog.example/1"))
          (Some (u8 "Mon, 05 Jan 2026 10:00:00 +0900")) (Some (u8 "feed summary")).

(** An entry whose [published] element is missing from the feed. *)
Definition entry_undated : FeedEntry :=
  mkEntry (Some (u8 "undated")) (Some (u8 "https://blog.example/3"))
          None (Some (u8 "no date")).

(** Every request fails. *)
Definition site_down (url : str) : outcome Page := Raised.

(** ** Facts *)

Example filter_sample :
  _filter_recent_posts sample_parse 0 default_config
    [post_jan5; post_dec1; post_undated; post_odd_date; post_at_cutoff] (Some jan6)
  = [post_jan5; post_odd_date; post_at_cutoff].
Proof. vm_compute. reflexivity. Qed.

Example fetch_rss_sample :
  _fetch_rss_feed (Returned [entry_jan5; entry_undated]) = [post_jan5; post_undated].
Proof. reflexivity. Qed.

Section Facts.

Variable feed : outcome (list FeedEntry).
Variable parse : str -> option datetime.
Variable now : Z.
Variable requests_get : str -> outcome Page.
Variable config : Config.

(** The published timestamp cannot be parsed. *)
Definition unparseable (post : Post) : Prop := parse (published post) = None.

(** The published timestamp parses to a date in the closed window from the
    cutoff to the reference date; a UTC offset it carries is discarded. *)
Definition in_window (reference_date : option Z) (post : Post) : Prop :=
  exists post_date,
    parse (published post) = Some post_date /\
    (cutoff_date now config reference_date <= wall post_date
     <= base_date now reference_date)%Z.

Lemma filter_step_in cutoff base acc post p :
  In p (filter_step parse cutoff base acc post) <->
  In p acc \/
  (p = post /\ published post <> [] /\
   forall post_date, parse (published post) = Some post_date ->
     (cutoff <= wall post_date <= base)%Z).
Proof.
  unfold filter_step.
  destruct (published post) as [|c rest] eqn:Hpub.
  - split; [auto | intros [H | (_ & H & _)]; [exact H | congruence]].
  - destruct (parse (c :: rest)) as [post_date|] eqn:Hparse.
    + assert (Hwall : wall (match utcoffset post_date with
                            | Some _ => replace_tzinfo_none post_date
                            | None => post_date
                            end) = wall post_date)
        by (destruct (utcoffset post_date); reflexivity).
      rewrite Hwall.
      destruct ((cutoff <=? wall post_date) && (wall post_date <=? base))%Z eqn:Hin.
      * rewrite in_app_iff. simpl.
        apply andb_true_iff in Hin as [H1 H2].
        apply Z.leb_le in H1. apply Z.leb_le in H2.
        split.
        -- intros [H | [H | []]]; [auto |].
           right. split; [congruence |]. split; [discriminate |].
           intros d Hd. injection Hd as <-. lia.
        -- intros [H | (H & _)]; [auto | right; left; congruence].
      * split; [auto |].
        intros [H | (_ & _ & H)]; [exact H |].
        specialize (H _ eq_refl).
        apply andb_false_iff in Hin as [Hin | Hin]; apply Z.leb_gt in Hin; lia.
    + rewrite in_app_iff. simpl.
      split.
      * intros [H | [H | []]]; [auto |].
        right. split; [congruence |]. split; discriminate.
      * intros [H | (H & _)]; [auto | right; left; congruence].
Qed.

Lemma filter_loop_in cutoff base posts acc p :
  In p (fold_left (filter_step parse cutoff base) posts acc) <->
  In p acc \/
  (In p posts /\ published p <> [] /\
   forall post_date, parse (published p) = Some post_date ->
     (cutoff <= wall post_date <= base)%Z).
Proof.
  revert acc. induction posts as [|post posts IH]; intros acc; simpl.
  - split; [auto | intros [H | ([] & _)]; exact H].
  - rewrite IH, filter_step_in. split.
    + intros [[H | (-> & H)] | (H1 & H2)]; [left; exact H | right | right]; tauto.
    + intros [H | ([<- | H1] & H2)]; [left; left; exact H | left; right | right]; tauto.
Qed.

(** C1, as the code has it: the recency filter keeps a post exactly when
    its published field is not empty and its timestamp either lies in the
    closed window from cutoff (reference date minus the lookback days) to
    the reference date, or cannot be parsed.  A post whose published field
    is empty (or was missing from the feed) is dropped. *)
Theorem filter_recent_posts_keeps (posts : list Post) (reference_date : option Z)
    (p : Post) :
  In p (_filter_recent_posts parse now config posts reference_date) <->
  In p posts /\ published p <> [] /\ (in_window reference_date p \/ unparseable p).
Proof.
  unfold _filter_recent_posts, in_window, unparseable.
  rewrite filter_loop_in. simpl.
  destruct (parse (published p)) as [post_date|].
  - split.
    + intros [[] | (Hin & Hpub & Hwin)]. split; [exact Hin |]. split; [exact Hpub |].
      left. exists post_date. split; [reflexivity | apply Hwin; reflexivity].
    + intros (Hin & Hpub & [(d & Hd & Hwin) | Hnone]); [| discriminate].
      right. split; [exact Hin |]. split; [exact Hpub |].
      intros d' Hd'. congruence.
  - split.
    + intros [[] | (Hin & Hpub & _)]. auto.
    + intros (Hin & Hpub & _). right. split; [exact Hin |]. split; [exact Hpub |].
      discriminate.
Qed.

Lemma scrape_post_detail_returns post :
  exists detailed_post,
    _scrape_post_detail requests_get post = Returned detailed_post /\
    d_title detailed_post = title post /\
    d_link detailed_post = link post /\
    d_published detailed_post = published post /\
    (requests_get (link post) = Raised -> detailed_post = rss_only post).
Proof.
  unfold _scrape_post_detail.
  destruct (requests_get (link post)) as [page|]; eexists; split; try reflexivity;
    simpl; repeat split; auto; discriminate.
Qed.

Lemma collect_loop_spec batch acc :
  exists tail,
    fold_left (collect_step requests_get) batch acc = acc ++ tail /\
    length tail = length batch /\
    forall i post, nth_error batch i = Some post ->
      exists detailed_post,
        nth_error tail i = Some detailed_post /\
        d_title detailed_post = title post /\
        d_link detailed_post = link post /\
        d_published detailed_post = published post /\
        (requests_get (link post) = Raised -> detailed_post = rss_only post).
Proof.
  revert acc. induction batch as [|post batch IH]; intros acc; simpl.
  - exists []. rewrite app_nil_r. split; [reflexivity |]. split; [reflexivity |].
    intros [|i] post' H; discriminate.
  - destruct (scrape_post_detail_returns post) as (d & Hd & Hrest).
    unfold collect_step at 2. rewrite Hd.
    destruct (IH (acc ++ [d])) as (tail & Heq & Hlen & Hnth).
    exists (d :: tail). rewrite Heq, <- app_assoc. simpl.
    split; [reflexivity |]. split; [lia |].
    intros [|i] post' H; simpl in H |- *.
    + injection H as <-. exists d. split; [reflexivity | exact Hrest].
    + apply Hnth, H.
Qed.

(** C2, as the code has it: no item of the batch (the first [max_posts]
    recent posts) is skipped and the run is not aborted.  The returned
    sequence has one entry per item, in order, with the item's title, link
    and published date; an item whose fetch or parse raised is returned
    with the feed's summary as its content. *)
Theorem collect_posts_keeps_failed_items (reference_date : option Z) :
  let batch :=
    slice_to (_filter_recent_posts parse now config (_fetch_rss_feed feed) reference_date)
             (max_posts config) in
  let detailed_posts := collect_posts feed parse now requests_get config reference_date in
  length detailed_posts = length batch /\
  forall i post, nth_error batch i = Some post ->
    exists detailed_post,
      nth_error detailed_posts i = Some detailed_post /\
      d_title detailed_post = title post /\
      d_link detailed_post = link post /\
      d_published detailed_post = published post /\
      (requests_get (link post) = Raised ->
       detailed_post = rss_only post /\ d_content detailed_post = summary post).
Proof.
  intros batch detailed_posts.
  destruct (collect_loop_spec batch []) as (tail & Heq & Hlen & Hnth).
  assert (Hres : detailed_posts = tail) by exact Heq.
  rewrite Hres. split; [exact Hlen |].
  intros i post H.
  destruct (Hnth i post H) as (d & Hd & Ht & Hl & Hp & Hfail).
  exists d. split; [exact Hd |]. split; [exact Ht |]. split; [exact Hl |].
  split; [exact Hp |].
  intros Hraised. rewrite (Hfail Hraised). split; reflexivity.
Qed.

End Facts.

(** C1, counterexample: the feed entry without a published date becomes a
    post with an empty published field; dateutil cannot parse the empty
    string, and the filter drops the post all the same. *)
Lemma filter_drops_undated_post :
  _fetch_rss_feed (Returned [entry_undated]) = [post_undated] /\
  sample_parse (published post_undated) = None /\
  ~ In post_undated
       (_filter_recent_posts sample_parse 0 default_config
          (_fetch_rss_feed (Returned [entry_undated])) (Some jan6)).
Proof.
  split; [reflexivity |]. split; [reflexivity |].
  vm_compute. intros [].
Qed.

(** C2, counterexample: the only item's detail page cannot be fetched, and
    the item is returned nevertheless, carrying the feed's summary. *)
Lemma failed_item_is_returned :
  site_down (link post_jan5) = Raised /\
  collect_posts (Returned [entry_jan5]) sample_parse 0 site_down default_config (Some jan6)
  = [{| d_title := title post_jan5; d_link := link post_jan5;
        d_published := published post_jan5; d_content := u8 "feed summary" |}].
Proof. split; [reflexivity | vm_compute; reflexivity]. Qed.

End Collector.


(* ================================================================== *)
(** * analyzer.py: PostAnalyzer                                        *)
(* ================================================================== *)

Module Analyzer.

(** The keys of a post that the analyzer reads. *)
Record Post : Type := mkPost {
  title : str;
  content : str
}.

(** [self.category_keywords], in declaration order (the iteration order
    of the dict). *)
Definition category_keywords : list (str * list str) :=
  [ (u8 "AI 기술",
     map u8 [ "AI"; "인공지능"; "머신러닝"; "딥러닝"; "LLM"; "GPT"; "ChatGPT";
              "생성형"; "신경망"; "학습"; "알고리즘"; "데이터"; "모델";
              "transformer"; "neural"; "machine learning"; "deep learning";
              "언어모델"; "AGI"; "자연어처리"; "NLP"; "컴퓨터비전"; "CV" ]%string);
    (u8 "과학 기술",
     map u8 [ "과학"; "물리"; "화학"; "생물"; "우주"; "천문"; "양자";
              "나노"; "신소재"; "바이오"; "유전"; "DNA"; "RNA"; "단백질";
              "입자"; "분자"; "원자"; "실험"; "연구소"; "발견";
              "의학"; "치료"; "질병"; "백신"; "암"; "세포" ]%string);
    (u8 "산업 동향",
     map u8 [ "기업"; "시장"; "투자"; "매출"; "수익"; "주가"; "상장";
              "IPO"; "M&A"; "인수"; "합병"; "스타트업"; "벤처";
              "산업"; "업계"; "비즈니스"; "경영"; "전략"; "CEO";
              "제품"; "출시"; "서비스"; "플랫폼" ]%string);
    (u8 "연구 개발",
     map u8 [ "연구"; "개발"; "논문"; "저널"; "학회"; "발표"; "특허";
              "실험"; "테스트"; "프로토타입"; "R&D"; "연구원"; "박사";
              "대학"; "연구소"; "랩"; "laboratory"; "혁신"; "기술개발" ]%string);
    (u8 "정책 및 규제",
     map u8 [ "정책"; "규제"; "법"; "법률"; "정부"; "국회"; "의회";
              "가이드라인"; "지침"; "규정"; "제도"; "법안"; "개정";
              "허가"; "승인"; "인증"; "표준"; "안전"; "보안" ]%string) ].

(** The catch-all category. *)
Definition other : str := u8 "기타".

(** [max(scores.values())]; [None] is the ValueError on an empty dict. *)
Fixpoint max_from (best : Z) (rest : list (str * Z)) : Z :=
  match rest with
  | [] => best
  | (_, score) :: rest' =>
      if (best <? score)%Z then max_from score rest' else max_from best rest'
  end.

Definition max_value (scores : list (str * Z)) : option Z :=
  match scores with
  | [] => None
  | (_, score) :: rest => Some (max_from score rest)
  end.

(** [max(scores, key=scores.get)]: the first key, in iteration order,
    whose score no later key exceeds. *)
Fixpoint max_key_from (best : str) (best_score : Z) (rest : list (str * Z)) : str :=
  match rest with
  | [] => best
  | (category, score) :: rest' =>
      if (best_score <? score)%Z then max_key_from category score rest'
      else max_key_from best best_score rest'
  end.

Definition max_key (scores : list (str * Z)) : option str :=
  match scores with
  | [] => None
  | (category, score) :: rest => Some (max_key_from category score rest)
  end.

Section WithLower.

(** [str.lower] *)
Variable lower : str -> str.

(** The body of [for keyword in keywords]. *)
Definition keyword_step (post : Post) (score : Z) (keyword : str) : Z :=
  let score :=
    if contains (lower keyword) (lower (title post)) then (score + 2)%Z else score in
  if contains (lower keyword) (lower (content post)) then (score + 1)%Z else score.

Definition category_score (post : Post) (keywords : list str) : Z :=
  fold_left (keyword_step post) keywords 0%Z.

Definition scores (post : Post) : list (str * Z) :=
  map (fun entry => (fst entry, category_score post (snd entry))) category_keywords.

Definition _classify_category (post : Post) : outcome str :=
  match max_value (scores post) with
  | None => Raised
  | Some top =>
      if (0 <? top)%Z then
        match max_key (scores post) with
        | Some category => Returned category
        | None => Raised
        end
      else Returned other
  end.

End WithLower.

(** ** The summariser *)

(** The class [[.!?]] *)
Definition is_terminal (c : N) : bool := ((c =? 46) || (c =? 33) || (c =? 63))%N.

Definition next_is_space (s : str) : bool :=
  match s with
  | [] => false
  | c :: _ => is_space c
  end.

(** [re.split(r'[.!?]\s+', s)].  [current] is the piece being read, in
    reverse; [in_separator] holds while the whitespace of a separator
    that has started is being consumed (the match of [\s+] is greedy).
    A separator starts at the leftmost terminal character that is followed
    by whitespace. *)
Fixpoint split_from (current : str) (in_separator : bool) (s : str) : list str :=
  match s with
  | [] => [rev current]
  | c :: rest =>
      if in_separator && is_space c then split_from current true rest
      else if is_terminal c && next_is_space rest
           then rev current :: split_from [] true rest
           else split_from (c :: current) false rest
  end.

Definition re_split (s : str) : list str := split_from [] false s.

(** [[s.strip() for s in sentences if len(s.strip()) > 10]] *)
Definition long_sentences (pieces : list str) : list str :=
  flat_map (fun s => if (10 <? len (strip s))%Z then [strip s] else []) pieces.

(** [content[:200].strip() + '...'] *)
Definition truncated (content : str) : str :=
  strip (slice_to content 200) ++ u8 "...".

(** The selection loop over [sentences[:5]]; the result is
    [summary_sentences] when the loop ends. *)
Fixpoint select_sentences (sentences : list str) (summary_sentences : list str)
    (total_length : Z) : list str :=
  match sentences with
  | [] => summary_sentences
  | sentence :: rest =>
      if (300 <? total_length + len sentence)%Z then summary_sentences
      else
        let summary_sentences := summary_sentences ++ [sentence] in
        let total_length := (total_length + len sentence)%Z in
        if (2 <=? Z.of_nat (length summary_sentences))%Z then summary_sentences
        else select_sentences rest summary_sentences total_length
  end.

Definition placeholder : str := u8 "내용을 확인할 수 없습니다.".

(** [_create_simple_summary(content)]; [None] is Python's [None]. *)
Definition _create_simple_summary (content : option str) : str :=
  match content with
  | None | Some [] => placeholder
  | Some content =>
      let sentences := long_sentences (re_split content) in
      match sentences with
      | [] => truncated content
      | _ :: _ =>
          match select_sentences (slice_to sentences 5) [] 0%Z with
          | [] => truncated content
          | summary_sentences => join (u8 ". ") summary_sentences ++ u8 "."
          end
      end
  end.

(** ** Facts *)

Example re_split_two : re_split (u8 "Hello world.  Bye now. ") = [u8 "Hello world"; u8 "Bye now"; []].
Proof. reflexivity. Qed.

Example re_split_nested : re_split (u8 "A. . x") = [u8 "A"; []; u8 "x"].
Proof. reflexivity. Qed.

Example re_split_final_period :
  re_split (u8 "0123456789. abcdefghijkl mnop.") = [u8 "0123456789"; u8 "abcdefghijkl mnop."].
Proof. reflexivity. Qed.

Example summary_of_test_post :
  _create_simple_summary
    (Some (u8 "OpenAI가 GPT-4의 새로운 멀티모달 기능을 발표했습니다. 이미지와 텍스트를 동시에 처리할 수 있게 되었습니다. 이는 인공지능 기술의 큰 진보입니다."))
  = u8 "OpenAI가 GPT-4의 새로운 멀티모달 기능을 발표했습니다. 이미지와 텍스트를 동시에 처리할 수 있게 되었습니다.".
Proof. vm_compute. reflexivity. Qed.

Example classify_test_post :
  _classify_category ascii_lower
    (mkPost (u8 "GPT-4의 새로운 기능 소개")
            (u8 "OpenAI가 GPT-4의 새로운 멀티모달 기능을 발표했습니다. 이미지와 텍스트를 동시에 처리할 수 있게 되었습니다. 이는 인공지능 기술의 큰 진보입니다."))
  = Returned (u8 "AI 기술").
Proof. vm_compute. reflexivity. Qed.

Lemma max_key_from_split rest : forall best best_score,
  exists earlier later top,
    (best, best_score) :: rest
      = earlier ++ (max_key_from best best_score rest, top) :: later /\
    top = max_from best_score rest /\
    (best_score <= top)%Z /\
    Forall (fun entry => (snd entry < top)%Z) earlier /\
    Forall (fun entry => (snd entry <= top)%Z) later.
Proof.
  induction rest as [|[category score] rest IH]; intros best best_score; simpl.
  - exists [], [], best_score. repeat split; auto; lia.
  - destruct (best_score <? score)%Z eqn:Hlt.
    + apply Z.ltb_lt in Hlt.
      destruct (IH category score) as (earlier & later & top & Heq & Htop & Hle & He & Hl).
      exists ((best, best_score) :: earlier), later, top.
      rewrite Heq. repeat split; auto; try lia.
      constructor; [simpl; lia | exact He].
    + apply Z.ltb_ge in Hlt.
      destruct (IH best best_score) as (earlier & later & top & Heq & Htop & Hle & He & Hl).
      remember (max_key_from best best_score rest) as winner eqn:Hwinner.
      destruct earlier as [|first earlier]; simpl in Heq.
      * exists [], ((category, score) :: later), top.
        split; [simpl; congruence |].
        split; [exact Htop |]. split; [exact Hle |]. split; [constructor |].
        constructor; [simpl; lia | exact Hl].
      * exists ((best, best_score) :: (category, score) :: earlier), later, top.
        apply List.Forall_cons_iff in He as [Hfirst_lt He'].
        assert (Hfirst : first = (best, best_score)) by congruence.
        rewrite Hfirst in Hfirst_lt. simpl in Hfirst_lt.
        split; [simpl; congruence |].
        split; [exact Htop |]. split; [exact Hle |]. split; [| exact Hl].
        constructor; [simpl; lia |]. constructor; [simpl; lia | exact He'].
Qed.

Lemma category_keywords_nonempty : category_keywords <> [].
Proof. discriminate. Qed.

Section ClassifierFacts.

Variable lower : str -> str.

(** How many of [keywords] occur in [text], both lower-cased. *)
Definition hits (text : str) (keywords : list str) : Z :=
  Z.of_nat (length (List.filter (fun keyword => contains (lower keyword) (lower text))
                                keywords)).

(** The score of the classifier as the specification words it. *)
Definition weighted_score (post : Post) (keywords : list str) : Z :=
  (2 * hits (title post) keywords + 1 * hits (content post) keywords)%Z.

Lemma hits_nonneg text keywords : (0 <= hits text keywords)%Z.
Proof. unfold hits. lia. Qed.

Lemma keyword_loop_weighted post keywords : forall score,
  fold_left (keyword_step lower post) keywords score
  = (score + weighted_score post keywords)%Z.
Proof.
  unfold weighted_score, hits.
  induction keywords as [|keyword keywords IH]; intros score; simpl.
  - lia.
  - rewrite IH. unfold keyword_step.
    destruct (contains (lower keyword) (lower (title post)));
      destruct (contains (lower keyword) (lower (content post))); simpl length; lia.
Qed.

Lemma category_score_weighted post keywords :
  category_score lower post keywords = weighted_score post keywords.
Proof. unfold category_score. rewrite keyword_loop_weighted. lia. Qed.

Lemma Forall_scores (R : Z -> Prop) post (entries : list (str * list str)) :
  Forall (fun entry => R (snd entry))
         (map (fun entry => (fst entry, category_score lower post (snd entry))) entries) ->
  Forall (fun entry => R (weighted_score post (snd entry))) entries.
Proof.
  rewrite List.Forall_map. apply List.Forall_impl. intros entry. simpl.
  rewrite category_score_weighted. auto.
Qed.

(** C3: the classifier always returns a category.  It is the catch-all
    category when every category scores 0.  Otherwise it is a category of
    the table with a positive score, 2 per keyword found in the title plus
    1 per keyword found in the content (case-insensitively, as
    substrings), such that every category declared earlier scores strictly
    less and every category declared later scores no more: the strictly
    greatest score wins, and among equal greatest scores the category
    declared first. *)
Theorem classify_category_spec (post : Post) :
  exists category,
    _classify_category lower post = Returned category /\
    ((category = other /\
      Forall (fun entry => weighted_score post (snd entry) = 0%Z) category_keywords)
     \/
     (exists earlier keywords later,
        category_keywords = earlier ++ (category, keywords) :: later /\
        (0 < weighted_score post keywords)%Z /\
        Forall (fun entry =>
                  (weighted_score post (snd entry) < weighted_score post keywords)%Z)
               earlier /\
        Forall (fun entry =>
                  (weighted_score post (snd entry) <= weighted_score post keywords)%Z)
               later)).
Proof.
  unfold _classify_category, scores.
  destruct category_keywords as [|[first first_keywords] table] eqn:Htable;
    [destruct (category_keywords_nonempty Htable) |].
  simpl map. simpl max_value. simpl max_key.
  destruct (max_key_from_split
              (map (fun entry => (fst entry, category_score lower post (snd entry))) table)
              first (category_score lower post first_keywords))
    as (earlier & later & top & Heq & Htop & Hle & He & Hl).
  rewrite <- Htop.
  change ((first, category_score lower post first_keywords)
          :: map (fun entry => (fst entry, category_score lower post (snd entry))) table)
    with (map (fun entry => (fst entry, category_score lower post (snd entry)))
              ((first, first_keywords) :: table)) in Heq.
  apply map_eq_app in Heq as (earlier' & rest' & Hsplit & Hearlier & Hrest).
  apply map_eq_cons in Hrest as ([category keywords] & later' & -> & Hwin & Hlater).
  simpl in Hwin. injection Hwin as Hcategory Hscore.
  rewrite category_score_weighted in Hscore.
  subst earlier later.
  apply (Forall_scores (fun score => (score < top)%Z)) in He.
  apply (Forall_scores (fun score => (score <= top)%Z)) in Hl.
  destruct (0 <? top)%Z eqn:Hpos.
  - apply Z.ltb_lt in Hpos.
    eexists. split; [reflexivity |]. right.
    exists earlier', keywords, later'.
    rewrite <- Hcategory, Hscore. auto.
  - apply Z.ltb_ge in Hpos.
    eexists. split; [reflexivity |]. left. split; [reflexivity |].
    rewrite Hsplit. apply List.Forall_app. split; [| constructor].
    + revert He. apply List.Forall_impl. intros entry H.
      pose proof (hits_nonneg (title post) (snd entry)).
      pose proof (hits_nonneg (content post) (snd entry)).
      unfold weighted_score in *. lia.
    + simpl.
      pose proof (hits_nonneg (title post) keywords).
      pose proof (hits_nonneg (content post) keywords).
      unfold weighted_score in *. lia.
    + revert Hl. apply List.Forall_impl. intros entry H.
      pose proof (hits_nonneg (title post) (snd entry)).
      pose proof (hits_nonneg (content post) (snd entry)).
      unfold weighted_score in *. lia.
Qed.

End ClassifierFacts.

(** The equal-score fixture: one keyword of the second category and one of
    the fourth in the title; the second, declared earlier, wins. *)
Example classify_tie_break :
  let post := mkPost (u8 "양자 논문") [] in
  weighted_score ascii_lower post (map u8 ["양자"]%string) = 2%Z /\
  map (fun entry => category_score ascii_lower post (snd entry)) category_keywords
    = [0; 2; 0; 2; 0]%Z /\
  _classify_category ascii_lower post = Returned (u8 "과학 기술").
Proof. vm_compute. repeat split; reflexivity. Qed.

Example classify_no_keyword :
  _classify_category ascii_lower (mkPost (u8 "hello") (u8 "nothing here")) = Returned other.
Proof. vm_compute. reflexivity. Qed.

(** *** The split *)

(** A terminal character followed by whitespace occurs in [s]. *)
Fixpoint has_cut (s : str) : bool :=
  match s with
  | [] => false
  | c :: rest => (is_terminal c && next_is_space rest) || has_cut rest
  end.

(** [Split s pieces]: [s] is [pieces] joined by separators, each a
    terminal character and the whole run of whitespace after it, and no
    piece holds a separator. *)
Inductive Split : str -> list str -> Prop :=
| Split_end s : has_cut s = false -> Split s [s]
| Split_cut piece t ws rest pieces :
    has_cut piece = false ->
    is_terminal t = true ->
    ws <> [] -> Forall (fun c => is_space c = true) ws ->
    next_is_space rest = false ->
    Split rest pieces ->
    Split (piece ++ t :: ws ++ rest) (piece :: pieces).

Definition cons_head (c : N) (pieces : list str) : list str :=
  match pieces with
  | [] => [[c]]
  | piece :: pieces' => (c :: piece) :: pieces'
  end.

Lemma split_from_current s : forall current,
  split_from current false s
  = match split_from [] false s with
    | piece :: pieces => (rev current ++ piece) :: pieces
    | [] => [rev current]
    end.
Proof.
  induction s as [|c rest IH]; intros current.
  - simpl. rewrite List.app_nil_r. reflexivity.
  - cbn [split_from andb].
    destruct (is_terminal c && next_is_space rest).
    + simpl. rewrite List.app_nil_r. reflexivity.
    + rewrite (IH (c :: current)), (IH [c]).
      destruct (split_from [] false rest) as [|piece pieces]; simpl.
      * reflexivity.
      * rewrite <- List.app_assoc. reflexivity.
Qed.

Lemma split_from_separator s :
  split_from [] true s = split_from [] false (lstrip s).
Proof.
  induction s as [|c rest IH]; [reflexivity |].
  cbn [split_from lstrip andb].
  destruct (is_space c); [exact IH | reflexivity].
Qed.

Lemma re_split_cons c rest :
  re_split (c :: rest)
  = if is_terminal c && next_is_space rest then [] :: re_split (lstrip rest)
    else cons_head c (re_split rest).
Proof.
  unfold re_split. cbn [split_from andb].
  destruct (is_terminal c && next_is_space rest).
  - rewrite split_from_separator. reflexivity.
  - rewrite split_from_current.
    destruct (split_from [] false rest); reflexivity.
Qed.

Lemma terminal_not_space t : is_terminal t = true -> is_space t = false.
Proof.
  unfold is_terminal. rewrite !orb_true_iff, !N.eqb_eq.
  intros [[-> | ->] | ->]; reflexivity.
Qed.

Lemma next_is_space_lstrip s : next_is_space (lstrip s) = false.
Proof.
  induction s as [|c s IH]; [reflexivity |].
  simpl. destruct (is_space c) eqn:Hc; [exact IH | simpl; exact Hc].
Qed.

(** [re.split] cuts at every leftmost terminal character followed by
    whitespace and drops the terminal with all the whitespace after it. *)
Lemma re_split_spec s : Split s (re_split s).
Proof.
  remember (length s) as n eqn:Hn. revert s Hn.
  induction n as [n IH] using lt_wf_ind. intros [|c rest] Hn.
  - apply Split_end. reflexivity.
  - rewrite re_split_cons.
    destruct (is_terminal c && next_is_space rest) eqn:Hcut.
    + apply andb_true_iff in Hcut as [Hc Hrest].
      destruct (lstrip_split rest) as (ws & Heq & Hws).
      assert (Hne : ws <> []).
      { intros ->. destruct rest as [|d rest']; [discriminate |].
        simpl in Hrest, Heq. rewrite Hrest in Heq.
        pose proof (length_lstrip rest') as Hlen.
        rewrite <- Heq in Hlen. simpl in Hlen. lia. }
      rewrite Heq at 1.
      apply (Split_cut [] c ws (lstrip rest)); auto using next_is_space_lstrip.
      apply (IH (length (lstrip rest))); [| reflexivity].
      pose proof (length_lstrip rest). subst n. simpl. lia.
    + assert (Hrec : Split rest (re_split rest)).
      { apply (IH (length rest)); [subst n; simpl; lia | reflexivity]. }
      destruct Hrec as [rest Hnone | piece t ws rest' pieces Hnone Ht Hne Hws Hnext Hrec].
      * apply Split_end. simpl. rewrite Hcut, Hnone. reflexivity.
      * apply (Split_cut (c :: piece) t ws rest' pieces); auto.
        simpl. rewrite Hnone, orb_false_r.
        destruct piece as [|d piece]; [apply andb_false_r | exact Hcut].
Qed.

Lemma long_sentences_filter pieces :
  long_sentences pieces = List.filter (fun s => (10 <? len s)%Z) (map strip pieces).
Proof.
  unfold long_sentences.
  induction pieces as [|piece pieces IH]; simpl; [reflexivity |].
  rewrite IH. destruct (10 <? len (strip piece))%Z; reflexivity.
Qed.

(** The loop never reads past the second sentence. *)
Lemma select_first_two first others :
  select_sentences (slice_to (first :: others) 5) [] 0%Z =
  if (300 <? len first)%Z then []
  else
    match others with
    | [] => [first]
    | second :: _ =>
        if (300 <? len first + len second)%Z then [first] else [first; second]
    end.
Proof.
  change (slice_to (first :: others) 5) with (first :: firstn 4 others).
  cbn [select_sentences].
  replace (0 + len first)%Z with (len first) by lia.
  destruct (300 <? len first)%Z; [reflexivity |].
  change (2 <=? Z.of_nat (length ([] ++ [first])))%Z with false.
  cbn iota. destruct others as [|second others]; [reflexivity |].
  change (firstn 4 (second :: others)) with (second :: firstn 3 others).
  cbn [select_sentences].
  destruct (300 <? len first + len second)%Z; reflexivity.
Qed.

(** C4, as the code has it.  The candidate sentences are the pieces of the
    split at a terminal character followed by whitespace, each trimmed;
    a sentence survives when it has more than 10 characters, so one of
    exactly 10 characters is discarded.  With no surviving sentence, or
    when the first surviving sentence alone is longer than 300 characters,
    the summary is the first 200 characters of the content, trimmed,
    followed by an ellipsis.  Otherwise it is the first surviving
    sentence, followed by the second one when the two together do not
    exceed 300 characters, joined with a period and a space and closed
    with a period. *)
Theorem create_simple_summary_cases (c : N) (rest : str) :
  let content := c :: rest in
  let sentences := long_sentences (re_split content) in
  Split content (re_split content) /\
  sentences = List.filter (fun s => (10 <? len s)%Z) (map strip (re_split content)) /\
  _create_simple_summary (Some content) =
    match sentences with
    | [] => truncated content
    | first :: others =>
        if (300 <? len first)%Z then truncated content
        else
          match others with
          | [] => first ++ u8 "."
          | second :: _ =>
              if (300 <? len first + len second)%Z then first ++ u8 "."
              else first ++ u8 ". " ++ second ++ u8 "."
          end
    end.
Proof.
  intros content sentences. split; [apply re_split_spec |].
  split; [apply long_sentences_filter |].
  unfold _create_simple_summary. fold content. fold sentences.
  unfold content at 1.
  destruct sentences as [|first others]; [reflexivity |].
  rewrite select_first_two.
  destruct (300 <? len first)%Z; [reflexivity |].
  destruct others as [|second others]; [reflexivity |].
  destruct (300 <? len first + len second)%Z; [reflexivity |].
  change (join (u8 ". ") [first; second]) with (first ++ u8 ". " ++ second).
  rewrite <- !List.app_assoc. reflexivity.
Qed.

(** C4, counterexample: the first candidate sentence has exactly 10
    characters and does not survive; the summary starts with the second. *)
Lemma ten_character_sentence_is_discarded :
  let content := u8 "0123456789. This sentence is long enough." in
  len (u8 "0123456789") = 10%Z /\
  In (u8 "0123456789") (map strip (re_split content)) /\
  ~ In (u8 "0123456789") (long_sentences (re_split content)) /\
  _create_simple_summary (Some content) = u8 "This sentence is long enough..".
Proof.
  vm_compute. split; [reflexivity |]. split; [left; reflexivity |].
  split; [| reflexivity].
  intros [H | []]. discriminate H.
Qed.

(** C9: on [None] and on the empty string the summary is the fixed
    placeholder; no segmentation or truncation takes place, and the
    placeholder is not the bare ellipsis that truncating the empty content
    would give. *)
Theorem empty_content_gives_placeholder :
  _create_simple_summary None = placeholder /\
  _create_simple_summary (Some []) = placeholder /\
  placeholder = u8 "내용을 확인할 수 없습니다." /\
  truncated [] = u8 "..." /\
  placeholder <> truncated [].
Proof.
  repeat split; try reflexivity.
  vm_compute. discriminate.
Qed.

Example whitespace_only_summary : _create_simple_summary (Some (u8 "   ")) = u8 "...".
Proof. vm_compute. reflexivity. Qed.

(** The truncated prefix is trimmed. *)
Example truncation_is_trimmed : _create_simple_summary (Some (u8 "  short  ")) = u8 "short...".
Proof. vm_compute. reflexivity. Qed.

(** A first sentence of 301 characters: nothing is selected, and the
    summary is the truncated content. *)
Example long_first_sentence_is_truncated :
  let content := repeat 97%N 301 ++ u8 ". A second sentence." in
  long_sentences (re_split content) = [repeat 97%N 301; u8 "A second sentence."] /\
  _create_simple_summary (Some content) = repeat 97%N 200 ++ u8 "...".
Proof. vm_compute. split; reflexivity. Qed.

Example eleven_character_sentence_survives :
  _create_simple_summary (Some (u8 "01234567890. short.")) = u8 "01234567890.".
Proof. vm_compute. reflexivity. Qed.

End Analyzer.


(* ================================================================== *)
(** * ajunews_collector.py: AjunewsCollector                           *)
(* ================================================================== *)

Module Ajunews.

(** [self.known_urls] *)
Definition known_urls : list str :=
  map u8 [ "https://www.ajunews.com/view/20251217160834163";
           "https://www.ajunews.com/view/20251124072337005";
           "https://www.ajunews.com/view/20250925081655847";
           "https://www.ajunews.com/view/20251020092112653";
           "https://www.ajunews.com/view/20250825082808870";
           "https://www.ajunews.com/view/20250716103132938";
           "https://www.ajunews.com/view/20250514085620201";
           "https://www.ajunews.com/view/20250114095600305" ]%string.

(** ** The URL cache *)

(** The JSON object of the cache file; either key may be absent. *)
Record Cache : Type := mkCache {
  updated : option str;
  urls : option (list str)
}.

(** The cache file as [_load_or_generate_url_list] finds it. *)
Inductive CacheFile : Type :=
| NoFile                      (* [os.path.exists] is false *)
| Unreadable                  (* [open] or [json.load] raises *)
| Loaded (cache : Cache).

(** The three log lines of [_load_or_generate_url_list]. *)
Inductive LogLine : Type :=
| UsingCachedUrls             (* info: the cached URL list is used *)
| CacheLoadFailed             (* warning: loading the cache failed *)
| UsingDefaultUrls.           (* info: the default URL list is used *)

(** ** The column pattern *)

(** A regular expression of the shape used by [_is_now_future_column]:
    literal characters and [\s*]. *)
Inductive item : Type :=
| Chr (c : N)
| Spaces.

Definition literal (s : str) : list item := map Chr s.

(** One literal character against one character of the text under
    [re.IGNORECASE].  Every literal of the three patterns is a bracket, an
    ampersand, a Hangul syllable or one of the letters of "NowFuture";
    for these the only case variants are the ASCII ones. *)
Definition ci_eq (c d : N) : bool := (ascii_lower_char c =? ascii_lower_char d)%N.

(** A match of the pattern starting at the head of the text. *)
Fixpoint match_here (pattern : list item) (s : str) {struct pattern} : bool :=
  match pattern with
  | [] => true
  | Chr c :: pattern' =>
      match s with
      | d :: s' => ci_eq c d && match_here pattern' s'
      | [] => false
      end
  | Spaces :: pattern' =>
      (fix skip (s : str) : bool :=
         match_here pattern' s
         || match s with
            | d :: s' => is_space d && skip s'
            | [] => false
            end) s
  end.

(** [re.search(pattern, s, re.IGNORECASE)] as a truth value *)
Fixpoint re_search (pattern : list item) (s : str) : bool :=
  match_here pattern s
  || match s with
     | [] => false
     | _ :: s' => re_search pattern s'
     end.

Definition patterns : list (list item) :=
  [ literal (u8 "[곽재원의") ++ [Spaces] ++ literal (u8 "Now&Future]");
    literal (u8 "[곽재원의") ++ [Spaces] ++ literal (u8 "Now") ++ [Spaces]
      ++ literal (u8 "&") ++ [Spaces] ++ literal (u8 "Future]");
    literal (u8 "곽재원의") ++ [Spaces] ++ literal (u8 "Now&Future") ].

Definition _is_now_future_column (title : str) : bool :=
  existsb (fun pattern => re_search pattern title) patterns.

(** ** Scraping *)

(** What one article page offers after [requests.get] and BeautifulSoup. *)
Record Page : Type := mkPage {
  ld_headline : option str;          (* JSON-LD [headline] *)
  ld_date_published : option str;    (* JSON-LD [datePublished] *)
  og_title : option str;             (* content of meta og:title, '' without the attribute *)
  h1 : option str;                   (* text of the first h1 *)
  meta_published_time : option str;  (* content of meta article:published_time *)
  tag_links : list str;              (* text of each a.tag-link *)
  article_body : option str;         (* text of #articleBody, scripts and ads removed *)
  article : option str               (* text of the article element *)
}.

Record Post : Type := mkPost {
  title : str;
  url : str;
  author : str;
  published : str;
  tags : list str;
  content : str;
  source : str
}.

(** A string that is not empty, as [if s:] tests it. *)
Definition truthy (field : option str) : option str :=
  match field with
  | Some (c :: s) => Some (c :: s)
  | _ => None
  end.

Definition _extract_title (page : Page) : str :=
  match truthy (ld_headline page), og_title page, h1 page with
  | Some headline, _, _ => headline
  | None, Some og, _ => og
  | None, None, Some text => text
  | None, None, None => []
  end.

Definition _extract_date (now_iso : str) (page : Page) : str :=
  match truthy (ld_date_published page), meta_published_time page with
  | Some date, _ => date
  | None, Some date => date
  | None, None => now_iso
  end.

Definition _extract_tags (page : Page) : list str :=
  flat_map (fun tag_text =>
              match tag_text with
              | [] => []
              | c :: rest => if (c =? 35)%N then [rest] else [tag_text]
              end)
           (tag_links page).

Definition _extract_content (page : Page) : str :=
  match article_body page, article page with
  | Some text, _ => text
  | None, Some text => text
  | None, None => []
  end.

(** [s.replace('Z', '+00:00')] *)
Definition replace_Z (s : str) : str :=
  flat_map (fun c => if (c =? 90)%N then u8 "+00:00" else [c]) s.

Section WithEnvironment.

(** [datetime.fromisoformat]; [None] when it raises. *)
Variable fromisoformat : str -> option datetime.
(** The [year] attribute of a datetime. *)
Variable year : datetime -> Z.
(** [datetime.now()], naive, and its [isoformat()]. *)
Variable now : Z.
Variable now_iso : str.
(** [requests.get] + [raise_for_status] + BeautifulSoup on a URL. *)
Variable requests_get : str -> outcome Page.
(** The cache file on disk. *)
Variable cache_file : CacheFile.
(** [self.max_posts] and [self.year_filter] *)
Variable max_posts : Z.
Variable year_filter : Z.

Definition _load_or_generate_url_list : list LogLine * list str :=
  match cache_file with
  | NoFile => ([UsingDefaultUrls], known_urls)
  | Unreadable => ([CacheLoadFailed; UsingDefaultUrls], known_urls)
  | Loaded cache =>
      match fromisoformat (get (updated cache) (u8 "2000-01-01")) with
      | None => ([CacheLoadFailed; UsingDefaultUrls], known_urls)
      | Some cache_date =>
          match dt_sub (naive now) cache_date with
          | None => ([CacheLoadFailed; UsingDefaultUrls], known_urls)
          | Some age =>
              if (age <? timedelta_days 1)%Z
              then ([UsingCachedUrls], get (urls cache) known_urls)
              else ([UsingDefaultUrls], known_urls)
          end
      end
  end.

(** [_scrape_article(url)]: raises when the request fails, returns [None]
    for a page that is not the column. *)
Definition _scrape_article (url : str) : outcome (option Post) :=
  match requests_get url with
  | Raised => Raised
  | Returned page =>
      let title := _extract_title page in
      if negb (_is_now_future_column title) then Returned None
      else Returned (Some {| title := title;
                             url := url;
                             author := u8 "곽재원";
                             published := _extract_date now_iso page;
                             tags := _extract_tags page;
                             content := _extract_content page;
                             source := u8 "곽재원의 Now&Future (아주경제)" |})
  end.

Definition _is_valid_post (post : Post) : bool :=
  match published post with
  | [] => true
  | _ :: _ =>
      match fromisoformat (replace_Z (published post)) with
      | Some pub_date => (year pub_date =? year_filter)%Z
      | None => true
      end
  end.

(** The loop of [collect_posts] over the remaining candidate URLs.  The
    state is the list of accepted posts and the list of URLs requested so
    far. *)
Fixpoint collect_loop (candidates : list str) (posts : list Post) (requested : list str)
  : list Post * list str :=
  match candidates with
  | [] => (posts, requested)
  | url :: rest =>
      let requested := requested ++ [url] in
      match _scrape_article url with
      | Returned (Some post) =>
          if _is_valid_post post then
            let posts := posts ++ [post] in
            if (max_posts <=? Z.of_nat (length posts))%Z then (posts, requested)
            else collect_loop rest posts requested
          else collect_loop rest posts requested
      | Returned None => collect_loop rest posts requested
      | Raised => collect_loop rest posts requested
      end
  end.

(** [collect_posts]: the accepted posts, and the URLs requested on the
    way.  Saving the result to disk is left out. *)
Definition collect_posts : list Post * list str :=
  let url_list := snd _load_or_generate_url_list in
  collect_loop (slice_to url_list (max_posts * 2)) [] [].

End WithEnvironment.

(** ** A sample environment *)

(** 2026-01-06T12:00:00 *)
Definition jan6_noon : Z := ((739622 - 1) * day_us + 12 * 3600 * 1000000)%Z.

Definition minute_us : Z := 60000000.

(** What [fromisoformat] answers on the strings used below. *)
Definition sample_fromisoformat (s : str) : option datetime :=
  if str_eqb s (u8 "2026-01-05T12:01:00")
  then Some (naive (jan6_noon - (23 * 60 + 59) * minute_us))
  else if str_eqb s (u8 "2026-01-05T11:59:00")
  then Some (naive (jan6_noon - (24 * 60 + 1) * minute_us))
  else if str_eqb s (u8 "2026-01-05T12:00:00")
  then Some (naive (jan6_noon - day_us))
  else if str_eqb s (u8 "2026-01-06T11:00:00+09:00")
  then Some (mkDatetime (jan6_noon - 60 * minute_us) (Some (9 * 60 * minute_us)%Z))
  else if str_eqb s (u8 "2026-01-06T12:00:00")
  then Some (naive jan6_noon)
  else if str_eqb s (u8 "2000-01-01")
  then Some (naive ((730120 - 1) * day_us))
  else None.

(** The [year] attribute; every date of the sample pages lies in 2026. *)
Definition sample_year (dt : datetime) : Z := 2026.

Definition cached_urls : list str :=
  map u8 [ "https://www.ajunews.com/view/1"; "https://www.ajunews.com/view/2";
           "https://www.ajunews.com/view/3"; "https://www.ajunews.com/view/4";
           "https://www.ajunews.com/view/5" ]%string.

Definition cache_updated (stamp : string) : CacheFile :=
  Loaded (mkCache (Some (u8 stamp)) (Some cached_urls)).

(** Every request fails. *)
Definition site_down (url : str) : outcome Page := Raised.

(** Every page is a column article dated in the filter year. *)
Definition column_page : Page :=
  mkPage (Some (u8 "[곽재원의 Now&Future] 기술 패권")) None None None None [] (Some (u8 "body")) None.

Definition site_up (url : str) : outcome Page := Returned column_page.

(** ** Facts *)

Example cache_fresh_23h59 :
  _load_or_generate_url_list sample_fromisoformat jan6_noon (cache_updated "2026-01-05T12:01:00")
  = ([UsingCachedUrls], cached_urls).
Proof. vm_compute. reflexivity. Qed.

Example cache_stale_24h01 :
  _load_or_generate_url_list sample_fromisoformat jan6_noon (cache_updated "2026-01-05T11:59:00")
  = ([UsingDefaultUrls], known_urls).
Proof. vm_compute. reflexivity. Qed.

Example cache_stale_24h00 :
  _load_or_generate_url_list sample_fromisoformat jan6_noon (cache_updated "2026-01-05T12:00:00")
  = ([UsingDefaultUrls], known_urls).
Proof. vm_compute. reflexivity. Qed.

Example cache_with_offset_fails :
  _load_or_generate_url_list sample_fromisoformat jan6_noon (cache_updated "2026-01-06T11:00:00+09:00")
  = ([CacheLoadFailed; UsingDefaultUrls], known_urls).
Proof. vm_compute. reflexivity. Qed.

Example cache_without_stamp :
  _load_or_generate_url_list sample_fromisoformat jan6_noon (Loaded (mkCache None (Some cached_urls)))
  = ([UsingDefaultUrls], known_urls).
Proof. vm_compute. reflexivity. Qed.

Section CacheFacts.

Variable fromisoformat : str -> option datetime.
Variable now : Z.

(** The cache is fresh: its [updated] stamp (2000-01-01 when the key is
    absent) reads as a naive datetime less than one day before [now]. *)
Definition fresh (cache : Cache) : Prop :=
  exists cache_date,
    fromisoformat (get (updated cache) (u8 "2000-01-01")) = Some (naive cache_date) /\
    (now - cache_date < day_us)%Z.

Definition usable (cache_file : CacheFile) : Prop :=
  exists cache, cache_file = Loaded cache /\ fresh cache.

Lemma naive_eta dt : utcoffset dt = None -> dt = naive (wall dt).
Proof. destruct dt as [w o]. simpl. intros ->. reflexivity. Qed.

Lemma load_fresh cache :
  fresh cache ->
  _load_or_generate_url_list fromisoformat now (Loaded cache)
  = ([UsingCachedUrls], get (urls cache) known_urls).
Proof.
  intros (cache_date & Hparse & Hage).
  unfold _load_or_generate_url_list. rewrite Hparse.
  unfold dt_sub, naive, timedelta_days. simpl.
  destruct (Z.ltb_spec (now - cache_date) (1 * day_us)); [reflexivity | lia].
Qed.

Lemma load_not_usable cache_file :
  ~ usable cache_file ->
  snd (_load_or_generate_url_list fromisoformat now cache_file) = known_urls /\
  ~ In UsingCachedUrls (fst (_load_or_generate_url_list fromisoformat now cache_file)).
Proof.
  intros Hnot. unfold _load_or_generate_url_list.
  assert (Hdefault : forall log, log = [UsingDefaultUrls] \/ log = [CacheLoadFailed; UsingDefaultUrls] ->
            ~ In UsingCachedUrls log).
  { intros log [-> | ->]; simpl; intros H; repeat destruct H as [H | H]; try discriminate; auto. }
  destruct cache_file as [| | cache]; try (split; [reflexivity | apply Hdefault; auto]).
  destruct (fromisoformat (get (updated cache) (u8 "2000-01-01"))) as [cache_date|] eqn:Hparse;
    [| split; [reflexivity | apply Hdefault; auto]].
  unfold dt_sub. cbn [utcoffset wall naive].
  destruct (utcoffset cache_date) as [offset|] eqn:Hoffset;
    [split; [reflexivity | apply Hdefault; auto] |].
  destruct (Z.ltb_spec (now - wall cache_date) (timedelta_days 1));
    [| split; [reflexivity | apply Hdefault; auto]].
  exfalso. apply Hnot. exists cache. split; [reflexivity |].
  exists (wall cache_date). rewrite Hparse, (naive_eta _ Hoffset).
  split; [reflexivity |]. unfold timedelta_days in *. simpl. lia.
Qed.

(** C6: the cached URL list is used exactly when the cache file exists,
    loads, and its updated stamp lies strictly less than one day before
    now; the list returned is then the one stored in the cache.  In every
    other case the static known-URL list is returned.  A cache updated 23
    hours 59 minutes ago is used; one updated 24 hours, or 24 hours and
    one minute, ago is not. *)
Theorem load_or_generate_url_list_spec (cache_file : CacheFile) :
  let result := _load_or_generate_url_list fromisoformat now cache_file in
  (usable cache_file <-> In UsingCachedUrls (fst result)) /\
  (forall cache, cache_file = Loaded cache -> fresh cache ->
     snd result = get (urls cache) known_urls) /\
  (~ usable cache_file -> snd result = known_urls) /\
  (forall stamp stored cache_date,
     cache_file = Loaded (mkCache (Some stamp) (Some stored)) ->
     fromisoformat stamp = Some (naive cache_date) ->
     ((now - cache_date = (23 * 60 + 59) * minute_us)%Z -> snd result = stored) /\
     ((now - cache_date = 24 * 60 * minute_us)%Z -> snd result = known_urls) /\
     ((now - cache_date = (24 * 60 + 1) * minute_us)%Z -> snd result = known_urls)).
Proof.
  intros result. subst result.
  assert (Hdec : usable cache_file \/ ~ usable cache_file).
  { unfold usable, fresh.
    destruct cache_file as [| | cache];
      try (right; intros (cache' & Heq & _); discriminate).
    destruct (fromisoformat (get (updated cache) (u8 "2000-01-01"))) as [[w [o|]]|] eqn:Hparse.
    - right. intros (cache' & Heq & d & Hd & _). injection Heq as <-.
      rewrite Hparse in Hd. discriminate.
    - destruct (Z.lt_ge_cases (now - w) day_us).
      + left. exists cache. split; [reflexivity |]. exists w. auto.
      + right. intros (cache' & Heq & d & Hd & Hlt). injection Heq as <-.
        rewrite Hparse in Hd. injection Hd as <-. lia.
    - right. intros (cache' & Heq & d & Hd & _). injection Heq as <-.
      rewrite Hparse in Hd. discriminate. }
  split; [| split; [| split]].
  - split.
    + intros (cache & -> & Hfresh). rewrite (load_fresh _ Hfresh). simpl. auto.
    + intros Hin. destruct Hdec as [H | H]; [exact H |].
      destruct (load_not_usable _ H) as [_ Hnot]. contradiction.
  - intros cache -> Hfresh. rewrite (load_fresh _ Hfresh). reflexivity.
  - intros H. apply (load_not_usable _ H).
  - intros stamp stored cache_date -> Hparse.
    split; [| split]; intros Hage.
    + rewrite load_fresh; [reflexivity |].
      exists cache_date. simpl. split; [exact Hparse |].
      rewrite Hage. reflexivity.
    + apply load_not_usable.
      intros (cache' & Heq & d & Hd & Hlt). injection Heq as <-.
      simpl in Hd. rewrite Hparse in Hd. injection Hd as <-.
      rewrite Hage in Hlt. vm_compute in Hlt. discriminate.
    + apply load_not_usable.
      intros (cache' & Heq & d & Hd & Hlt). injection Heq as <-.
      simpl in Hd. rewrite Hparse in Hd. injection Hd as <-.
      rewrite Hage in Hlt. vm_compute in Hlt. discriminate.
Qed.

End CacheFacts.

(** *** The column pattern *)

Definition all_space (ws : str) : Prop := Forall (fun c => is_space c = true) ws.

(** Equal up to the case of ASCII letters. *)
Definition same_letters (a w : str) : Prop := ascii_lower a = ascii_lower w.

(** The strings a pattern matches in full. *)
Inductive Lang : list item -> str -> Prop :=
| Lang_nil : Lang [] []
| Lang_chr c d pattern m :
    ci_eq c d = true -> Lang pattern m -> Lang (Chr c :: pattern) (d :: m)
| Lang_spaces ws pattern m :
    all_space ws -> Lang pattern m -> Lang (Spaces :: pattern) (ws ++ m).

Lemma match_here_spaces pattern s :
  match_here (Spaces :: pattern) s
  = match_here pattern s
    || match s with
       | d :: s' => is_space d && match_here (Spaces :: pattern) s'
       | [] => false
       end.
Proof. destruct s; reflexivity. Qed.

Lemma match_here_sound pattern : forall s,
  match_here pattern s = true -> exists m rest, s = m ++ rest /\ Lang pattern m.
Proof.
  induction pattern as [|[c|] pattern IH]; intros s H.
  - exists [], s. split; [reflexivity | constructor].
  - destruct s as [|d s']; simpl in H; [discriminate |].
    apply andb_true_iff in H as [Hc H].
    destruct (IH _ H) as (m & rest & -> & HL).
    exists (d :: m), rest. split; [reflexivity | constructor; assumption].
  - assert (Hbase : forall s, match_here pattern s = true ->
                      exists m rest, s = m ++ rest /\ Lang (Spaces :: pattern) m).
    { intros s0 H0. destruct (IH _ H0) as (m & rest & -> & HL).
      exists m, rest. split; [reflexivity |].
      apply (Lang_spaces [] pattern m); [constructor | exact HL]. }
    induction s as [|d s' IHs]; rewrite match_here_spaces in H.
    + rewrite orb_false_r in H. apply Hbase, H.
    + apply orb_true_iff in H as [H | H]; [apply Hbase, H |].
      apply andb_true_iff in H as [Hd H].
      destruct (IHs H) as (m & rest & -> & HL).
      inversion HL as [| |ws pattern' m' Hws HL' Hp Hm]; subst.
      exists (d :: ws ++ m'), rest. split; [reflexivity |].
      apply (Lang_spaces (d :: ws) pattern m'); [constructor; assumption | exact HL'].
Qed.

Lemma match_here_complete pattern m :
  Lang pattern m -> forall rest, match_here pattern (m ++ rest) = true.
Proof.
  induction 1 as [|c d pattern m Hc HL IH|ws pattern m Hws HL IH]; intros rest.
  - reflexivity.
  - simpl. rewrite Hc. apply IH.
  - induction Hws as [|d ws Hd Hws IHws]; rewrite match_here_spaces.
    + simpl. rewrite IH. reflexivity.
    + change (((d :: ws) ++ m) ++ rest) with (d :: (ws ++ m) ++ rest).
      cbv iota. rewrite Hd, IHws. apply orb_true_r.
Qed.

Lemma re_search_iff pattern s :
  re_search pattern s = true <->
  exists before m after, s = before ++ m ++ after /\ Lang pattern m.
Proof.
  split.
  - induction s as [|d s IH]; simpl; intros H.
    + rewrite orb_false_r in H.
      destruct (match_here_sound _ _ H) as (m & rest & Heq & HL).
      exists [], m, rest. auto.
    + apply orb_true_iff in H as [H | H].
      * destruct (match_here_sound _ _ H) as (m & rest & Heq & HL).
        exists [], m, rest. auto.
      * destruct (IH H) as (before & m & after & -> & HL).
        exists (d :: before), m, after. auto.
  - intros (before & m & after & -> & HL).
    induction before as [|d before IH].
    + assert (Hhead : forall s0, match_here pattern s0 = true -> re_search pattern s0 = true)
        by (intros [|? ?] H0; simpl; rewrite H0; reflexivity).
      apply Hhead, (match_here_complete _ _ HL).
    + simpl. rewrite IH. apply orb_true_r.
Qed.

Lemma Lang_nil_iff m : Lang [] m <-> m = [].
Proof. split; [inversion 1; reflexivity | intros ->; constructor]. Qed.

Lemma Lang_spaces_iff pattern m :
  Lang (Spaces :: pattern) m <->
  exists ws m', m = ws ++ m' /\ all_space ws /\ Lang pattern m'.
Proof.
  split.
  - inversion 1; subst. eauto.
  - intros (ws & m' & -> & Hws & HL). constructor; assumption.
Qed.

Lemma Lang_literal w pattern : forall m,
  Lang (literal w ++ pattern) m <->
  exists a m', m = a ++ m' /\ same_letters a w /\ Lang pattern m'.
Proof.
  unfold same_letters.
  induction w as [|c w IH]; intros m; simpl.
  - split.
    + intros HL. exists [], m. auto.
    + intros (a & m' & -> & Ha & HL).
      destruct a; [exact HL | discriminate].
  - split.
    + inversion 1 as [|c' d pattern' m0 Hc HL|]; subst.
      apply IH in HL as (a & m' & -> & Ha & HL).
      exists (d :: a), m'. split; [reflexivity |]. split; [| exact HL].
      simpl. unfold ci_eq in Hc. apply N.eqb_eq in Hc. congruence.
    + intros (a & m' & -> & Ha & HL).
      destruct a as [|d a]; [discriminate |].
      simpl in Ha. injection Ha as Hd Ha.
      simpl. constructor.
      * unfold ci_eq. apply N.eqb_eq. congruence.
      * apply IH. eauto.
Qed.

(** The marker without brackets: the name, optional whitespace, the
    phrase with the ASCII ampersand. *)
Definition plain_marker (m : str) : Prop :=
  exists name ws phrase,
    m = name ++ ws ++ phrase /\
    same_letters name (u8 "곽재원의") /\ all_space ws /\
    same_letters phrase (u8 "Now&Future").

(** The bracketed marker with optional whitespace around the ASCII
    ampersand. *)
Definition spaced_marker (m : str) : Prop :=
  exists opening ws1 word1 ws2 amp ws3 word2,
    m = opening ++ ws1 ++ word1 ++ ws2 ++ amp ++ ws3 ++ word2 /\
    same_letters opening (u8 "[곽재원의") /\ all_space ws1 /\
    same_letters word1 (u8 "Now") /\ all_space ws2 /\
    same_letters amp (u8 "&") /\ all_space ws3 /\
    same_letters word2 (u8 "Future]").

Lemma Lang_plain m :
  Lang (literal (u8 "곽재원의") ++ [Spaces] ++ literal (u8 "Now&Future")) m
  <-> plain_marker m.
Proof.
  unfold plain_marker.
  rewrite <- (List.app_nil_r (literal (u8 "Now&Future"))).
  rewrite Lang_literal. split.
  - intros (name & m1 & -> & Hname & HL).
    apply Lang_spaces_iff in HL as (ws & m2 & -> & Hws & HL).
    apply Lang_literal in HL as (phrase & m3 & -> & Hphrase & HL).
    apply Lang_nil_iff in HL as ->.
    exists name, ws, phrase. rewrite List.app_nil_r. auto.
  - intros (name & ws & phrase & -> & Hname & Hws & Hphrase).
    exists name, (ws ++ phrase). split; [reflexivity |]. split; [exact Hname |].
    apply Lang_spaces_iff. exists ws, phrase. split; [reflexivity |].
    split; [exact Hws |].
    apply Lang_literal. exists phrase, []. rewrite List.app_nil_r.
    split; [reflexivity |]. split; [exact Hphrase | constructor].
Qed.

Lemma Lang_spaced m :
  Lang (literal (u8 "[곽재원의") ++ [Spaces] ++ literal (u8 "Now") ++ [Spaces]
          ++ literal (u8 "&") ++ [Spaces] ++ literal (u8 "Future]")) m
  <-> spaced_marker m.
Proof.
  unfold spaced_marker.
  rewrite <- (List.app_nil_r (literal (u8 "Future]"))).
  rewrite Lang_literal. split.
  - intros (opening & m1 & -> & Hopening & HL).
    apply Lang_spaces_iff in HL as (ws1 & m2 & -> & Hws1 & HL).
    apply Lang_literal in HL as (word1 & m3 & -> & Hword1 & HL).
    apply Lang_spaces_iff in HL as (ws2 & m4 & -> & Hws2 & HL).
    apply Lang_literal in HL as (amp & m5 & -> & Hamp & HL).
    apply Lang_spaces_iff in HL as (ws3 & m6 & -> & Hws3 & HL).
    apply Lang_literal in HL as (word2 & m7 & -> & Hword2 & HL).
    apply Lang_nil_iff in HL as ->.
    exists opening, ws1, word1, ws2, amp, ws3, word2.
    rewrite List.app_nil_r. repeat split; assumption.
  - intros (opening & ws1 & word1 & ws2 & amp & ws3 & word2 & -> & Hopening & Hws1
            & Hword1 & Hws2 & Hamp & Hws3 & Hword2).
    eexists opening, _. split; [reflexivity |]. split; [exact Hopening |].
    apply Lang_spaces_iff. eexists ws1, _. split; [reflexivity |]. split; [exact Hws1 |].
    apply Lang_literal. eexists word1, _. split; [reflexivity |]. split; [exact Hword1 |].
    apply Lang_spaces_iff. eexists ws2, _. split; [reflexivity |]. split; [exact Hws2 |].
    apply Lang_literal. eexists amp, _. split; [reflexivity |]. split; [exact Hamp |].
    apply Lang_spaces_iff. eexists ws3, _. split; [reflexivity |]. split; [exact Hws3 |].
    apply Lang_literal. exists word2, []. rewrite List.app_nil_r.
    split; [reflexivity |]. split; [exact Hword2 | constructor].
Qed.

(** A match of the first pattern contains a match of the third. *)
Lemma Lang_bracketed_plain m :
  Lang (literal (u8 "[곽재원의") ++ [Spaces] ++ literal (u8 "Now&Future]")) m ->
  exists x inner y, m = [x] ++ inner ++ [y] /\ plain_marker inner.
Proof.
  rewrite <- (List.app_nil_r (literal (u8 "Now&Future]"))).
  intros HL.
  apply Lang_literal in HL as (opening & m1 & -> & Hopening & HL).
  apply Lang_spaces_iff in HL as (ws & m2 & -> & Hws & HL).
  apply Lang_literal in HL as (closing & m3 & -> & Hclosing & HL).
  apply Lang_nil_iff in HL as ->.
  unfold same_letters in Hopening, Hclosing.
  change (u8 "[곽재원의") with (91%N :: u8 "곽재원의") in Hopening.
  change (u8 "Now&Future]") with (u8 "Now&Future" ++ [93%N]) in Hclosing.
  destruct opening as [|x name]; [discriminate |].
  simpl in Hopening. injection Hopening as _ Hname.
  unfold ascii_lower in Hclosing. rewrite (map_app _ (u8 "Now&Future")) in Hclosing.
  apply map_eq_app in Hclosing as (phrase & tail & -> & Hphrase & Htail).
  destruct tail as [|y [|? ?]]; try discriminate.
  exists x, (name ++ ws ++ phrase), y. split.
  - rewrite List.app_nil_r. simpl. rewrite <- !List.app_assoc. reflexivity.
  - exists name, ws, phrase. auto.
Qed.

(** C7, as the code has it: a title is accepted exactly when it contains,
    up to the case of ASCII letters, either the name followed by optional
    whitespace and the phrase "Now&Future", with or without brackets around
    them, or the bracketed marker with optional whitespace around its
    ampersand.  The ampersand is the ASCII one in both. *)
Theorem is_now_future_column_spec (title : str) :
  _is_now_future_column title = true <->
  exists before m after,
    title = before ++ m ++ after /\ (plain_marker m \/ spaced_marker m).
Proof.
  unfold _is_now_future_column, patterns. cbn [existsb].
  rewrite !orb_true_iff, !re_search_iff. split.
  - intros [H | [H | [H | H]]]; [| | | discriminate].
    + destruct H as (before & m & after & -> & HL).
      apply Lang_bracketed_plain in HL as (x & inner & y & -> & Hplain).
      exists (before ++ [x]), inner, ([y] ++ after).
      split; [| left; exact Hplain].
      rewrite <- !List.app_assoc. reflexivity.
    + destruct H as (before & m & after & -> & HL).
      exists before, m, after. split; [reflexivity |]. right. apply Lang_spaced, HL.
    + destruct H as (before & m & after & -> & HL).
      exists before, m, after. split; [reflexivity |]. left. apply Lang_plain, HL.
  - intros (before & m & after & -> & [H | H]).
    + right. right. left. exists before, m, after.
      split; [reflexivity | apply Lang_plain, H].
    + right. left. exists before, m, after.
      split; [reflexivity | apply Lang_spaced, H].
Qed.

(** C7, counterexample: the bracketed marker written with the full-width
    ampersand is rejected, and the phrase without brackets is accepted. *)
Lemma fullwidth_ampersand_rejected_unbracketed_accepted :
  _is_now_future_column (u8 "[곽재원의 Now＆Future] 기술 패권") = false /\
  _is_now_future_column (u8 "곽재원의 Now&Future 기술 패권") = true.
Proof. split; vm_compute; reflexivity. Qed.

Section CollectFacts.

Variable fromisoformat : str -> option datetime.
Variable year : datetime -> Z.
Variable now : Z.
Variable now_iso : str.
Variable requests_get : str -> outcome Page.
Variable cache_file : CacheFile.
Variable max_posts : Z.
Variable year_filter : Z.

Lemma collect_loop_bounds candidates : forall posts requested,
  (Z.of_nat (length posts) < max_posts)%Z ->
  let result :=
    collect_loop fromisoformat year now_iso requests_get max_posts year_filter
                 candidates posts requested in
  (Z.of_nat (length (fst result)) <= max_posts)%Z /\
  exists k, (k <= length candidates)%nat /\
            snd result = requested ++ firstn k candidates.
Proof.
  induction candidates as [|url rest IH]; intros posts requested Hlt; simpl.
  - split; [lia |]. exists 0%nat. rewrite List.app_nil_r. auto.
  - assert (Hskip :
      let result :=
        collect_loop fromisoformat year now_iso requests_get max_posts year_filter
                     rest posts (requested ++ [url]) in
      (Z.of_nat (length (fst result)) <= max_posts)%Z /\
      exists k, (k <= S (length rest))%nat /\
                snd result = requested ++ firstn k (url :: rest)).
    { destruct (IH posts (requested ++ [url]) Hlt) as (Hlen & k & Hk & Hreq).
      split; [exact Hlen |]. exists (S k). split; [lia |].
      rewrite Hreq, <- List.app_assoc. reflexivity. }
    destruct (_scrape_article now_iso requests_get url) as [[post|]|]; try exact Hskip.
    destruct (_is_valid_post fromisoformat year year_filter post); try exact Hskip.
    destruct (Z.leb_spec max_posts (Z.of_nat (length (posts ++ [post])))) as [Hfull | Hroom].
    + simpl. rewrite length_app in *. simpl length in *. split; [lia |].
      exists 1%nat. split; [lia | reflexivity].
    + destruct (IH (posts ++ [post]) (requested ++ [url]) Hroom) as (Hlen & k & Hk & Hreq).
      split; [exact Hlen |]. exists (S k). split; [lia |].
      rewrite Hreq, <- List.app_assoc. reflexivity.
Qed.

(** C10: with a non-negative [max_posts], at most [max_posts] posts are
    returned, and the URLs requested are a prefix of the candidate list no
    longer than 2 x [max_posts]: a candidate beyond that position is never
    requested, however few posts were accepted before it. *)
Theorem collect_posts_bounds :
  (0 <= max_posts)%Z ->
  let url_list := snd (_load_or_generate_url_list fromisoformat now cache_file) in
  let result :=
    collect_posts fromisoformat year now now_iso requests_get cache_file
                  max_posts year_filter in
  (Z.of_nat (length (fst result)) <= max_posts)%Z /\
  exists k, (Z.of_nat k <= 2 * max_posts)%Z /\ snd result = firstn k url_list.
Proof.
  intros Hmax url_list result. subst result. unfold collect_posts. fold url_list.
  unfold slice_to.
  destruct (Z.leb_spec 0%Z (max_posts * 2)%Z) as [_ | H]; [| lia].
  destruct (Z.eq_dec max_posts 0%Z) as [-> | Hpos].
  - simpl. split; [lia |]. exists 0%nat. split; [lia | reflexivity].
  - destruct (collect_loop_bounds (firstn (Z.to_nat (max_posts * 2)) url_list) [] [])
      as (Hlen & k & Hk & Hreq); [simpl; lia |].
    split; [exact Hlen |].
    exists k. rewrite length_firstn in Hk. split; [lia |].
    rewrite Hreq. simpl. rewrite firstn_firstn. f_equal. lia.
Qed.

End CollectFacts.

(** Five candidates, [max_posts] = 2, the site down: four requests, no post. *)
Example collect_posts_site_down :
  collect_posts sample_fromisoformat sample_year jan6_noon (u8 "2026-01-06T12:00:00")
                site_down (cache_updated "2026-01-05T12:01:00") 2 2026
  = ([], firstn 4 cached_urls).
Proof. vm_compute. reflexivity. Qed.

(** The same candidates with every page a column article: two requests,
    two posts. *)
Example collect_posts_site_up :
  let result :=
    collect_posts sample_fromisoformat sample_year jan6_noon (u8 "2026-01-06T12:00:00")
                  site_up (cache_updated "2026-01-05T12:01:00") 2 2026 in
  map url (fst result) = firstn 2 cached_urls /\ snd result = firstn 2 cached_urls.
Proof. vm_compute. split; reflexivity. Qed.

(** C10 at the sample environment with the site down. *)
Lemma collect_posts_bounds_witness :
  (0 <= 2)%Z /\
  (Z.of_nat (length (fst (collect_posts sample_fromisoformat sample_year jan6_noon
                            (u8 "2026-01-06T12:00:00") site_down
                            (cache_updated "2026-01-05T12:01:00") 2 2026))) <= 2)%Z /\
  exists k, (Z.of_nat k <= 2 * 2)%Z /\
    snd (collect_posts sample_fromisoformat sample_year jan6_noon
           (u8 "2026-01-06T12:00:00") site_down
           (cache_updated "2026-01-05T12:01:00") 2 2026)
    = firstn k (snd (_load_or_generate_url_list sample_fromisoformat jan6_noon
                       (cache_updated "2026-01-05T12:01:00"))).
Proof.
  split; [lia |].
  apply (collect_posts_bounds sample_fromisoformat sample_year jan6_noon
           (u8 "2026-01-06T12:00:00") site_down (cache_updated "2026-01-05T12:01:00")
           2 2026).
  lia.
Defined.

Example column_titles :
  _is_now_future_column (u8 "[곽재원의 Now&Future] 기술 패권") = true /\
  _is_now_future_column (u8 "[곽재원의   now & FUTURE] 기술 패권") = true /\
  _is_now_future_column (u8 "곽재원의 Now & Future") = false /\
  _is_now_future_column (u8 "오늘의 경제 뉴스") = false.
Proof. repeat split; vm_compute; reflexivity. Qed.

End Ajunews.


(* ================================================================== *)
(** * multi_source_collector.py: MultiSourceCollector                  *)
(* ================================================================== *)

Module MultiSource.

(** The values a post dict holds. *)
Inductive pyval : Type :=
| VStr (s : str)
| VList (l : list str).

(** A post is a Python dict from key to value; the orchestrator adds keys
    to the dicts the collectors return. *)
Abbreviation Post := (gmap str pyval).

(** One entry of [config['data_sources']]; only [name] is read here. *)
Record SourceConfig : Type := mkSourceConfig {
  enabled : bool;
  name : option str
}.

Definition k_data_source : str := u8 "data_source".
Definition k_source_display_name : str := u8 "source_display_name".
Definition k_source : str := u8 "source".

Section WithConfig.

(** [self.data_sources_config] *)
Variable data_sources_config : gmap str SourceConfig.

(** [data_sources_config.get(source_name, {}).get('name', source_name)] *)
Definition source_display_name (source_name : str) : str :=
  match data_sources_config !! source_name with
  | Some source_config => get (name source_config) source_name
  | None => source_name
  end.

(** The body of [for post in posts]. *)
Definition stamp (source_name : str) (post : Post) : Post :=
  let post := <[k_data_source := VStr source_name]> post in
  let post := <[k_source_display_name := VStr (source_display_name source_name)]> post in
  match post !! k_source with
  | Some _ => post
  | None => <[k_source := VStr (source_display_name source_name)]> post
  end.

(** The body of [for source_name, collector in self.collectors.items()];
    [result] is what [collector.collect_posts(reference_date)] does. *)
Definition collect_step (state : list Post * gmap str Z)
    (source : str * outcome (list Post)) : list Post * gmap str Z :=
  let '(all_posts, source_stats) := state in
  let '(source_name, result) := source in
  match result with
  | Returned posts =>
      (all_posts ++ map (stamp source_name) posts,
       <[source_name := Z.of_nat (length posts)]> source_stats)
  | Raised => (all_posts, <[source_name := 0%Z]> source_stats)
  end.

(** [collect_all_sources]: the aggregate and [source_stats].  The
    collectors are given in the order of [self.collectors]; saving the
    combined result is left out. *)
Definition collect_all_sources (collectors : list (str * outcome (list Post)))
  : list Post * gmap str Z :=
  fold_left collect_step collectors ([], ∅).

End WithConfig.

(** ** A sample run *)

Definition sample_config : gmap str SourceConfig :=
  {[ u8 "naver_blog" := mkSourceConfig true (Some (u8 "과학기술 블로그"));
     u8 "ajunews_column" := mkSourceConfig true None ]}.

Definition blog_post (title : string) : Post :=
  {[ u8 "title" := VStr (u8 title); u8 "link" := VStr (u8 "https://blog.example/1") ]}.

Definition column_post : Post :=
  {[ u8 "title" := VStr (u8 "[곽재원의 Now&Future] 기술 패권");
     u8 "source" := VStr (u8 "곽재원의 Now&Future (아주경제)") ]}.

(** The first source fails, the second returns one post. *)
Definition sample_collectors : list (str * outcome (list Post)) :=
  [ (u8 "naver_blog", Raised); (u8 "ajunews_column", Returned [column_post]) ].

(** The blog, whose configuration has a [name], returns one post and the
    column source fails. *)
Definition named_collectors : list (str * outcome (list Post)) :=
  [ (u8 "naver_blog", Returned [blog_post "AI 반도체 동향"]);
    (u8 "ajunews_column", Raised) ].

(** ** Facts *)

Lemma keys_distinct :
  k_data_source <> k_source_display_name /\
  k_data_source <> k_source /\
  k_source_display_name <> k_source.
Proof. repeat split; vm_compute; discriminate. Qed.

Section Facts.

Variable data_sources_config : gmap str SourceConfig.

(** What one source adds to the aggregate. *)
Definition contribution (source : str * outcome (list Post)) : list Post :=
  match snd source with
  | Returned posts => map (stamp data_sources_config (fst source)) posts
  | Raised => []
  end.

(** What one source adds to [source_stats]. *)
Definition collected (result : outcome (list Post)) : Z :=
  match result with
  | Returned posts => Z.of_nat (length posts)
  | Raised => 0%Z
  end.

Lemma collect_step_eq (all_posts : list Post) (source_stats : gmap str Z)
    (source : str * outcome (list Post)) :
  collect_step data_sources_config (all_posts, source_stats) source
  = (all_posts ++ contribution source,
     <[fst source := collected (snd source)]> source_stats).
Proof.
  destruct source as [source_name [posts|]]; simpl; unfold contribution; simpl.
  - reflexivity.
  - rewrite List.app_nil_r. reflexivity.
Qed.

Lemma collect_loop_posts (collectors : list (str * outcome (list Post))) : forall all_posts source_stats,
  fst (fold_left (collect_step data_sources_config) collectors (all_posts, source_stats))
  = all_posts ++ concat (map contribution collectors).
Proof.
  induction collectors as [|source collectors IH]; intros all_posts source_stats;
    cbn [fold_left map concat].
  - rewrite List.app_nil_r. reflexivity.
  - rewrite collect_step_eq, IH, <- List.app_assoc. reflexivity.
Qed.

Lemma collect_loop_stats_other (collectors : list (str * outcome (list Post)))
    (source_name : str) :
  forall all_posts (source_stats : gmap str Z),
  ~ In source_name (map fst collectors) ->
  snd (fold_left (collect_step data_sources_config) collectors (all_posts, source_stats))
    !! source_name
  = source_stats !! source_name.
Proof.
  induction collectors as [|source collectors IH]; intros all_posts source_stats Hnot;
    cbn [fold_left]; [reflexivity |].
  rewrite collect_step_eq, IH.
  - apply lookup_insert_ne. intros Heq. apply Hnot. left. exact Heq.
  - intros Hin. apply Hnot. right. exact Hin.
Qed.

Lemma collect_loop_stats (collectors : list (str * outcome (list Post))) :
  forall all_posts (source_stats : gmap str Z),
  List.NoDup (map fst collectors) ->
  forall source_name result, In (source_name, result) collectors ->
  snd (fold_left (collect_step data_sources_config) collectors (all_posts, source_stats))
    !! source_name
  = Some (collected result).
Proof.
  induction collectors as [|source collectors IH];
    intros all_posts source_stats Hnodup source_name result Hin; [destruct Hin |].
  simpl in Hnodup. apply List.NoDup_cons_iff in Hnodup as [Hfresh Hnodup].
  cbn [fold_left]. rewrite collect_step_eq.
  destruct Hin as [-> | Hin].
  - rewrite collect_loop_stats_other by exact Hfresh.
    apply lookup_insert_eq.
  - apply IH; assumption.
Qed.

Lemma stamp_data_source (source_name : str) (post : Post) :
  stamp data_sources_config source_name post !! k_data_source = Some (VStr source_name).
Proof.
  destruct keys_distinct as (H1 & H2 & H3).
  unfold stamp.
  destruct (_ !! k_source);
    rewrite ?(lookup_insert_ne _ k_source), (lookup_insert_ne _ k_source_display_name)
      by congruence; apply lookup_insert_eq.
Qed.

Lemma stamp_display_name (source_name : str) (post : Post) :
  stamp data_sources_config source_name post !! k_source_display_name
  = Some (VStr (source_display_name data_sources_config source_name)).
Proof.
  destruct keys_distinct as (H1 & H2 & H3).
  unfold stamp.
  destruct (_ !! k_source); rewrite ?(lookup_insert_ne _ k_source) by congruence;
    apply lookup_insert_eq.
Qed.

Lemma in_aggregate (collectors : list (str * outcome (list Post))) (post : Post) :
  In post (concat (map contribution collectors)) ->
  exists source_name posts original,
    In (source_name, Returned posts) collectors /\ In original posts /\
    post = stamp data_sources_config source_name original.
Proof.
  rewrite in_concat. intros (part & Hpart & Hin).
  apply in_map_iff in Hpart as ([source_name [posts|]] & <- & Hsource);
    unfold contribution in Hin; simpl in Hin; [| destruct Hin].
  apply in_map_iff in Hin as (original & <- & Horiginal).
  exists source_name, posts, original. auto.
Qed.

(** C5: the aggregate is the concatenation, in source order, of what each
    source contributes by itself: its returned posts, stamped, or nothing
    when its collector raised.  A source that raised has a [source_stats]
    entry of 0 and no post of the aggregate carries its identifier; every
    other source has its own count.  Every post of the aggregate carries
    the identifier of the source it came from and that source's display
    name: the [name] configured for the source when there is one, and
    the identifier itself when the source has no configuration entry or
    its entry has no [name]. *)
Theorem collect_all_sources_isolates (collectors : list (str * outcome (list Post))) :
  List.NoDup (map fst collectors) ->
  let result := collect_all_sources data_sources_config collectors in
  fst result = concat (map contribution collectors) /\
  (forall source_name outcome_of_source,
     In (source_name, outcome_of_source) collectors ->
     snd result !! source_name = Some (collected outcome_of_source)) /\
  (forall source_name,
     In (source_name, Raised) collectors ->
     snd result !! source_name = Some 0%Z /\
     forall post, In post (fst result) -> post !! k_data_source <> Some (VStr source_name)) /\
  (forall post,
     In post (fst result) ->
     exists source_name posts display_name,
       In (source_name, Returned posts) collectors /\
       post !! k_data_source = Some (VStr source_name) /\
       post !! k_source_display_name = Some (VStr display_name) /\
       (forall source_config configured,
          data_sources_config !! source_name = Some source_config ->
          name source_config = Some configured ->
          display_name = configured) /\
       ((forall source_config,
           data_sources_config !! source_name = Some source_config ->
           name source_config = None) ->
        display_name = source_name)).
Proof.
  intros Hnodup result. subst result. unfold collect_all_sources.
  rewrite collect_loop_posts. simpl app.
  assert (Hstamped : forall post,
            In post (concat (map contribution collectors)) ->
            exists source_name posts,
              In (source_name, Returned posts) collectors /\
              post !! k_data_source = Some (VStr source_name) /\
              post !! k_source_display_name
                = Some (VStr (source_display_name data_sources_config source_name))).
  { intros post Hin.
    apply in_aggregate in Hin as (source_name & posts & original & Hsource & _ & ->).
    exists source_name, posts.
    split; [exact Hsource |].
    split; [apply stamp_data_source | apply stamp_display_name]. }
  split; [reflexivity |]. split; [| split].
  - intros source_name outcome_of_source Hin.
    apply collect_loop_stats; assumption.
  - intros source_name Hin. split.
    + apply (collect_loop_stats collectors [] ∅ Hnodup source_name Raised Hin).
    + intros post Hpost Hid.
      destruct (Hstamped post Hpost) as (other & posts & Hother & Hds & _).
      rewrite Hds in Hid. injection Hid as ->.
      clear Hstamped Hpost Hds.
      induction collectors as [|[first first_result] rest IH]; [destruct Hin |].
      simpl in Hnodup. apply List.NoDup_cons_iff in Hnodup as [Hfresh Hnodup].
      destruct Hin as [Hin | Hin]; destruct Hother as [Hother | Hother].
      * congruence.
      * injection Hin as -> _. apply Hfresh.
        apply in_map_iff. exists (source_name, Returned posts). auto.
      * injection Hother as -> _. apply Hfresh.
        apply in_map_iff. exists (source_name, Raised). auto.
      * apply IH; assumption.
  - intros post Hpost.
    destruct (Hstamped post Hpost) as (source_name & posts & Hsource & Hid & Hname).
    exists source_name, posts, (source_display_name data_sources_config source_name).
    split; [exact Hsource |]. split; [exact Hid |]. split; [exact Hname |].
    unfold source_display_name.
    destruct (data_sources_config !! source_name) as [source_config|].
    + split.
      * intros source_config' configured Hconfig Hconfigured.
        injection Hconfig as <-. rewrite Hconfigured. reflexivity.
      * intros Hunnamed. rewrite (Hunnamed source_config eq_refl). reflexivity.
    + split; [intros source_config configured Hconfig; discriminate Hconfig |].
      intros _. reflexivity.
Qed.

End Facts.

Example sample_run :
  let result := collect_all_sources sample_config sample_collectors in
  fst result
    = [ {[ u8 "title" := VStr (u8 "[곽재원의 Now&Future] 기술 패권");
           u8 "source" := VStr (u8 "곽재원의 Now&Future (아주경제)");
           k_data_source := VStr (u8 "ajunews_column");
           k_source_display_name := VStr (u8 "ajunews_column") ]} ] /\
  snd result !! u8 "naver_blog" = Some 0%Z /\
  snd result !! u8 "ajunews_column" = Some 1%Z.
Proof. vm_compute. repeat split; reflexivity. Qed.

(** The configured name is the display name, and it becomes the
    [source] of a post that has none. *)
Example named_run :
  let result := collect_all_sources sample_config named_collectors in
  fst result
    = [ {[ u8 "title" := VStr (u8 "AI 반도체 동향");
           u8 "link" := VStr (u8 "https://blog.example/1");
           k_data_source := VStr (u8 "naver_blog");
           k_source_display_name := VStr (u8 "과학기술 블로그");
           k_source := VStr (u8 "과학기술 블로그") ]} ] /\
  snd result !! u8 "naver_blog" = Some 1%Z /\
  snd result !! u8 "ajunews_column" = Some 0%Z.
Proof. vm_compute. repeat split; reflexivity. Qed.

(** C5 at a run in which the source with a configured name returns a
    post and the other source raises. *)
Lemma collect_all_sources_isolates_witness :
  List.NoDup (map fst named_collectors) /\
  fst (collect_all_sources sample_config named_collectors)
    = concat (map (contribution sample_config) named_collectors) /\
  (forall source_name outcome_of_source,
     In (source_name, outcome_of_source) named_collectors ->
     snd (collect_all_sources sample_config named_collectors) !! source_name
       = Some (collected outcome_of_source)) /\
  (forall source_name,
     In (source_name, Raised) named_collectors ->
     snd (collect_all_sources sample_config named_collectors) !! source_name = Some 0%Z /\
     forall post, In post (fst (collect_all_sources sample_config named_collectors)) ->
       post !! k_data_source <> Some (VStr source_name)) /\
  (forall post,
     In post (fst (collect_all_sources sample_config named_collectors)) ->
     exists source_name posts display_name,
       In (source_name, Returned posts) named_collectors /\
       post !! k_data_source = Some (VStr source_name) /\
       post !! k_source_display_name = Some (VStr display_name) /\
       (forall source_config configured,
          sample_config !! source_name = Some source_config ->
          name source_config = Some configured ->
          display_name = configured) /\
       ((forall source_config,
           sample_config !! source_name = Some source_config ->
           name source_config = None) ->
        display_name = source_name)).
Proof.
  assert (Hnodup : List.NoDup (map fst named_collectors)).
  { simpl. constructor.
    - vm_compute. intros [H | []]. discriminate H.
    - constructor; [intros [] | constructor]. }
  split; [exact Hnodup |].
  exact (collect_all_sources_isolates sample_config named_collectors Hnodup).
Defined.

End MultiSource.


(* ================================================================== *)
(** * report_generator.py: ReportGenerator                             *)
(* ================================================================== *)

Module Report.

(** The keys of an analysed post that the report reads. *)
Record Post : Type := mkPost {
  title : str;
  published : option str;
  summary : str;
  link : str
}.

(** [category_order] *)
Definition category_order : list str :=
  map u8 [ "AI 기술"; "과학 기술"; "연구 개발"; "산업 동향"; "정책 및 규제"; "기타" ]%string.

(** [categorized_posts]: a dict from category to posts, in insertion
    order. *)
Abbreviation Categorized := (list (str * list Post)).

(** [category in categorized_posts] *)
Definition has_key (category : str) (categorized_posts : Categorized) : bool :=
  existsb (fun entry => str_eqb (fst entry) category) categorized_posts.

(** [categorized_posts[category]] for a key that is present *)
Fixpoint lookup (category : str) (categorized_posts : Categorized) : list Post :=
  match categorized_posts with
  | [] => []
  | (key, posts) :: rest => if str_eqb key category then posts else lookup category rest
  end.

Definition sorted_categories (categorized_posts : Categorized) : list str :=
  List.filter (fun category => has_key category categorized_posts) category_order
  ++ List.filter (fun category => negb (existsb (str_eqb category) category_order))
                 (map fst categorized_posts).

(** One step of a stable descending sort under Python's [<] on
    datetimes: [x] goes before the first element whose key is smaller.
    A comparison of a naive with an aware datetime raises. *)
Fixpoint insert_desc (key_x : datetime) (x : Post) (sorted : list (datetime * Post))
  : outcome (list (datetime * Post)) :=
  match sorted with
  | [] => Returned [(key_x, x)]
  | (key_y, y) :: rest =>
      match dt_lt key_y key_x with
      | None => Raised
      | Some true => Returned ((key_x, x) :: (key_y, y) :: rest)
      | Some false =>
          match insert_desc key_x x rest with
          | Returned rest' => Returned ((key_y, y) :: rest')
          | Raised => Raised
          end
      end
  end.

Fixpoint sort_loop (items sorted : list (datetime * Post))
  : outcome (list (datetime * Post)) :=
  match items with
  | [] => Returned sorted
  | (key_x, x) :: rest =>
      match insert_desc key_x x sorted with
      | Returned sorted' => sort_loop rest sorted'
      | Raised => Raised
      end
  end.

Section WithParser.

(** [dateutil.parser.parse]; [None] when it raises. *)
Variable parse : str -> option datetime.

Definition _parse_date (date_str : str) : datetime :=
  match parse date_str with
  | Some date => date
  | None => datetime_min
  end.

(** [sorted(posts, key=lambda p: self._parse_date(p.get('published', '')),
    reverse=True)].  The keys are computed first; the result is ordered by
    key, greatest first, posts of equal key in their original order.  The
    sort raises when it compares a naive key with an aware one, which
    every comparison sort does on a list holding both kinds: its
    comparisons have to connect all elements. *)
Definition sorted_by_date_desc (posts : list Post) : outcome (list Post) :=
  match sort_loop (map (fun p => (_parse_date (get (published p) []), p)) posts) [] with
  | Returned sorted => Returned (map snd sorted)
  | Raised => Raised
  end.

(** The loop over [sorted_categories]: one section per category that has
    posts, holding the posts in the order they are rendered. *)
Fixpoint render_sections (categorized_posts : Categorized) (categories : list str)
  : outcome (list (str * list Post)) :=
  match categories with
  | [] => Returned []
  | category :: rest =>
      match lookup category categorized_posts with
      | [] => render_sections categorized_posts rest        (* [continue] *)
      | posts =>
          match sorted_by_date_desc posts with
          | Raised => Raised
          | Returned sorted_posts =>
              match render_sections categorized_posts rest with
              | Returned sections => Returned ((category, sorted_posts) :: sections)
              | Raised => Raised
              end
          end
      end
  end.

(** The body of the document built by [_create_report_content]: its
    category sections in order.  The header, the summary block and the
    footer do not depend on the ordering and are left out. *)
Definition _create_report_content (categorized_posts : Categorized)
  : outcome (list (str * list Post)) :=
  render_sections categorized_posts (sorted_categories categorized_posts).

End WithParser.

(** ** Sample posts; the dates are read by [Collector.sample_parse] *)

Definition post_with_offset : Post :=
  mkPost (u8 "GPT") (Some (u8 "Mon, 05 Jan 2026 10:00:00 +0900")) (u8 "s1")
         (u8 "https://blog.example/1").

Definition post_odd_date : Post :=
  mkPost (u8 "odd") (Some (u8 "someday")) (u8 "s2") (u8 "https://blog.example/4").

Definition post_jan6 : Post :=
  mkPost (u8 "new") (Some (u8 "2026-01-06T23:59:59")) (u8 "s3") (u8 "https://blog.example/6").

Definition post_dec30 : Post :=
  mkPost (u8 "old") (Some (u8 "2025-12-30T23:59:59")) (u8 "s4") (u8 "https://blog.example/5").

(** ** Facts *)

(** The three populated categories of the specification's ordering
    scenario, and one category outside the canonical list. *)
Example category_ordering :
  sorted_categories
    [ (u8 "기타", [post_jan6]); (u8 "특집", [post_jan6]);
      (u8 "AI 기술", [post_jan6]); (u8 "과학 기술", [post_jan6]) ]
  = map u8 [ "AI 기술"; "과학 기술"; "기타"; "특집" ]%string.
Proof. vm_compute. reflexivity. Qed.

(** Naive dates only: newest first, the unparseable date last. *)
Example report_naive_dates :
  _create_report_content Collector.sample_parse
    [ (u8 "기타", [post_odd_date]);
      (u8 "AI 기술", [post_dec30; post_odd_date; post_jan6]) ]
  = Returned [ (u8 "AI 기술", [post_jan6; post_dec30; post_odd_date]);
               (u8 "기타", [post_odd_date]) ].
Proof. vm_compute. reflexivity. Qed.

(** C8, at the failing input: a category holds a post whose date carries a
    UTC offset, as the dates of the RSS feed do, and a post whose date
    cannot be parsed.  The second gets the naive [datetime.min] as its
    key, the comparison of the two keys raises, and no report is
    produced. *)
Theorem unparseable_date_among_offset_dates_raises :
  Collector.sample_parse (u8 "someday") = None /\
  _parse_date Collector.sample_parse (u8 "someday") = datetime_min /\
  utcoffset (_parse_date Collector.sample_parse (u8 "Mon, 05 Jan 2026 10:00:00 +0900"))
    = Some Collector.kst /\
  sorted_by_date_desc Collector.sample_parse [post_with_offset; post_odd_date] = Raised /\
  _create_report_content Collector.sample_parse
    [ (u8 "AI 기술", [post_with_offset; post_odd_date]) ] = Raised.
Proof. vm_compute. repeat split; reflexivity. Qed.

Section SortFacts.

Variable parse : str -> option datetime.

Definition date_key (p : Post) : datetime := _parse_date parse (get (published p) []).

(** Greatest wall-clock reading first. *)
Definition newer_first (a b : datetime * Post) : Prop :=
  (wall (fst b) <= wall (fst a))%Z.

Definition all_naive (items : list (datetime * Post)) : Prop :=
  Forall (fun entry => utcoffset (fst entry) = None) items.

Lemma insert_desc_naive key_x x sorted :
  utcoffset key_x = None -> all_naive sorted -> StronglySorted newer_first sorted ->
  exists sorted',
    insert_desc key_x x sorted = Returned sorted' /\
    Permutation ((key_x, x) :: sorted) sorted' /\
    StronglySorted newer_first sorted' /\ all_naive sorted'.
Proof.
  intros Hx. induction sorted as [|[key_y y] rest IH]; intros Hnaive Hsorted; simpl.
  - eexists. split; [reflexivity |]. split; [reflexivity |].
    split; repeat constructor. exact Hx.
  - apply List.Forall_cons_iff in Hnaive as [Hy Hnaive]. simpl in Hy.
    apply StronglySorted_inv in Hsorted as [Hsorted Hall].
    unfold dt_lt. rewrite Hy, Hx.
    destruct (Z.ltb_spec (wall key_y) (wall key_x)) as [Hlt | Hge].
    + eexists. split; [reflexivity |]. split; [reflexivity |]. split.
      * constructor; [constructor; assumption |].
        constructor; [unfold newer_first; simpl; lia |].
        revert Hall. apply List.Forall_impl. unfold newer_first. simpl. intros e. lia.
      * repeat constructor; assumption.
    + destruct (IH Hnaive Hsorted) as (rest' & -> & Hperm & Hsorted' & Hnaive').
      eexists. split; [reflexivity |]. split; [| split].
      * rewrite perm_swap. apply perm_skip, Hperm.
      * constructor; [exact Hsorted' |].
        apply (Permutation_Forall Hperm).
        constructor; [unfold newer_first; simpl; lia | exact Hall].
      * constructor; assumption.
Qed.

Lemma sort_loop_naive items : forall sorted,
  all_naive items -> all_naive sorted -> StronglySorted newer_first sorted ->
  exists out,
    sort_loop items sorted = Returned out /\
    Permutation (items ++ sorted) out /\ StronglySorted newer_first out.
Proof.
  induction items as [|[key_x x] items IH]; intros sorted Hitems Hnaive Hsorted; simpl.
  - eexists. split; [reflexivity |]. split; [reflexivity | exact Hsorted].
  - apply List.Forall_cons_iff in Hitems as [Hx Hitems]. simpl in Hx.
    destruct (insert_desc_naive key_x x sorted Hx Hnaive Hsorted)
      as (sorted' & -> & Hperm & Hsorted' & Hnaive').
    destruct (IH sorted' Hitems Hnaive' Hsorted') as (out & -> & Hperm' & Hout).
    eexists. split; [reflexivity |]. split; [| exact Hout].
    rewrite <- Hperm', <- Hperm. apply Permutation_middle.
Qed.

(** When no date of the category carries a UTC offset, the sort returns
    the same posts with the greatest date first; a post whose date cannot
    be parsed has the least key there is, [datetime.min]. *)
Lemma sorted_by_date_desc_naive (posts : list Post) :
  Forall (fun p => utcoffset (date_key p) = None) posts ->
  exists out,
    sorted_by_date_desc parse posts = Returned out /\
    Permutation posts out /\
    StronglySorted (fun p q => (wall (date_key q) <= wall (date_key p))%Z) out.
Proof.
  intros Hnaive. unfold sorted_by_date_desc.
  set (items := map (fun p => (_parse_date parse (get (published p) []), p)) posts).
  assert (Hitems : all_naive items).
  { unfold all_naive, items. rewrite List.Forall_map. exact Hnaive. }
  destruct (sort_loop_naive items [] Hitems (List.Forall_nil _) (SSorted_nil _))
    as (out & -> & Hperm & Hsorted).
  rewrite List.app_nil_r in Hperm.
  exists (map snd out). split; [reflexivity |]. split.
  - replace posts with (map snd items).
    + apply Permutation_map, Hperm.
    + unfold items. rewrite List.map_map. simpl. apply List.map_id.
  - assert (Hkeys : Forall (fun entry => fst entry = date_key (snd entry)) out).
    { apply (Permutation_Forall Hperm). unfold items.
      rewrite List.Forall_map. simpl. apply List.Forall_forall. reflexivity. }
    clear Hperm. induction Hsorted as [|entry out Hsorted IH Hall]; simpl.
    + constructor.
    + apply List.Forall_cons_iff in Hkeys as [Hentry Hkeys].
      constructor; [apply IH, Hkeys |].
      rewrite List.Forall_map.
      rewrite List.Forall_forall in Hall, Hkeys |- *.
      intros other Hin. specialize (Hall other Hin). specialize (Hkeys other Hin).
      unfold newer_first in Hall. rewrite Hentry, Hkeys in Hall. exact Hall.
Qed.

(** Whether a key carries a UTC offset. *)
Definition aware (key : datetime) : bool :=
  match utcoffset key with
  | Some _ => true
  | None => false
  end.

Lemma dt_lt_same_kind a b : aware a = aware b -> exists r, dt_lt a b = Some r.
Proof.
  unfold aware, dt_lt. destruct (utcoffset a), (utcoffset b); try discriminate; eauto.
Qed.

Lemma dt_lt_other_kind a b : aware a <> aware b -> dt_lt a b = None.
Proof.
  unfold aware, dt_lt. destruct (utcoffset a), (utcoffset b); congruence.
Qed.

Lemma insert_desc_same_kind key_x x sorted :
  Forall (fun entry => aware (fst entry) = aware key_x) sorted ->
  exists sorted',
    insert_desc key_x x sorted = Returned sorted' /\ sorted' <> [] /\
    Forall (fun entry => aware (fst entry) = aware key_x) sorted'.
Proof.
  induction sorted as [|[key_y y] rest IH]; intros Hkind; simpl.
  - eexists. split; [reflexivity |]. split; [discriminate |]. repeat constructor.
  - apply List.Forall_cons_iff in Hkind as [Hy Hrest]. simpl in Hy.
    destruct (dt_lt_same_kind key_y key_x Hy) as ([|] & ->).
    + eexists. split; [reflexivity |]. split; [discriminate |].
      repeat constructor; assumption.
    + destruct (IH Hrest) as (rest' & -> & _ & Hrest').
      eexists. split; [reflexivity |]. split; [discriminate |].
      constructor; assumption.
Qed.

Lemma sort_loop_mixed items : forall sorted kind,
  sorted <> [] ->
  Forall (fun entry => aware (fst entry) = kind) sorted ->
  Exists (fun entry => aware (fst entry) <> kind) items ->
  sort_loop items sorted = Raised.
Proof.
  induction items as [|[key_x x] items IH]; intros sorted kind Hne Hkind Hmixed.
  - inversion Hmixed.
  - simpl. destruct (Bool.bool_dec (aware key_x) kind) as [Hsame | Hother].
    + destruct (insert_desc_same_kind key_x x sorted) as (sorted' & -> & Hne' & Hkind').
      { rewrite Hsame. exact Hkind. }
      apply (IH sorted' kind Hne'); [rewrite <- Hsame; exact Hkind' |].
      apply List.Exists_cons in Hmixed as [Hhead | Htail]; [| exact Htail].
      simpl in Hhead. contradiction.
    + destruct sorted as [|[key_y y] rest]; [contradiction |].
      apply List.Forall_cons_iff in Hkind as [Hy _]. simpl in Hy.
      simpl. rewrite dt_lt_other_kind; [reflexivity | congruence].
Qed.

(** Whenever two posts of a category have keys of different kinds, one
    with a UTC offset and one without, the sort raises. *)
Lemma sorted_by_date_desc_mixed_raises (posts : list Post) (p q : Post) :
  In p posts -> In q posts ->
  aware (date_key p) = true -> aware (date_key q) = false ->
  sorted_by_date_desc parse posts = Raised.
Proof.
  intros Hp Hq Hpa Hqn. unfold sorted_by_date_desc.
  destruct posts as [|first posts]; [destruct Hp |].
  cbn [map sort_loop insert_desc].
  rewrite (sort_loop_mixed _ [(date_key first, first)] (aware (date_key first)));
    [reflexivity | discriminate | repeat constructor |].
  apply List.Exists_exists.
  destruct (aware (date_key first)) eqn:Hfirst.
  - destruct Hq as [-> | Hq]; [congruence |].
    exists (date_key q, q). split; [| simpl; congruence].
    apply in_map_iff. exists q. auto.
  - destruct Hp as [-> | Hp]; [congruence |].
    exists (date_key p, p). split; [| simpl; congruence].
    apply in_map_iff. exists p. auto.
Qed.

End SortFacts.

End Report.


(* ================================================================== *)
(** * collector.py: further properties of NaverBlogCollector           *)
(* ================================================================== *)

Module CollectorMore.

Import Collector.

(** The decision taken for one post by the loop of
    [_filter_recent_posts]. *)
Definition kept (parse : str -> option datetime) (cutoff base : Z) (post : Post) : bool :=
  match published post with
  | [] => false
  | _ :: _ =>
      match parse (published post) with
      | None => true
      | Some post_date => ((cutoff <=? wall post_date) && (wall post_date <=? base))%Z
      end
  end.

(** The last microsecond of [datetime.max], 9999-12-31T23:59:59.999999. *)
Definition datetime_max_wall : Z := (3652059 * day_us - 1)%Z.

(** [base_date - timedelta(days=days_lookback)] with its OverflowError:
    [timedelta] takes at most 999999999 days either way, and the
    difference has to be a datetime of the years 1 to 9999. *)
Definition checked_cutoff_date (now : Z) (config : Config) (reference_date : option Z)
  : outcome Z :=
  let days := days_lookback config in
  if ((-999999999 <=? days) && (days <=? 999999999))%Z then
    let cutoff := cutoff_date now config reference_date in
    if ((0 <=? cutoff) && (cutoff <=? datetime_max_wall))%Z
    then Returned cutoff
    else Raised
  else Raised.

(** [_filter_recent_posts] as a call that may raise: the subtraction
    that gives the cutoff date is outside the [try] of the loop. *)
Definition filter_recent_posts_checked (parse : str -> option datetime) (now : Z)
    (config : Config) (posts : list Post) (reference_date : option Z)
  : outcome (list Post) :=
  match checked_cutoff_date now config reference_date with
  | Returned _ => Returned (_filter_recent_posts parse now config posts reference_date)
  | Raised => Raised
  end.

(** The post built from one feed entry. *)
Definition post_of_entry (entry : FeedEntry) : Post :=
  {| title := get (entry_title entry) [];
     link := get (entry_link entry) [];
     published := get (entry_published entry) [];
     summary := get (entry_summary entry) [] |}.

(** A page whose first container holds 6000 characters. *)
Definition long_page : Page := mkPage (Some (repeat 97%N (Z.to_nat 6000))) None None.

Definition site_long (url : str) : outcome Page := Returned long_page.

(** Feed order: [items] is [all] with some elements left out. *)
Inductive subsequence {A : Type} : list A -> list A -> Prop :=
| subsequence_nil : subsequence [] []
| subsequence_skip x items all : subsequence items all -> subsequence items (x :: all)
| subsequence_keep x items all : subsequence items all -> subsequence (x :: items) (x :: all).

Lemma subsequence_filter {A : Type} (f : A -> bool) (l : list A) :
  subsequence (List.filter f l) l.
Proof.
  induction l as [|x l IH]; simpl; [constructor |].
  destruct (f x); [apply subsequence_keep | apply subsequence_skip]; exact IH.
Qed.

Lemma subsequence_firstn {A : Type} (n : nat) (l : list A) : subsequence (firstn n l) l.
Proof.
  revert n. induction l as [|x l IH]; intros n.
  - destruct n; constructor.
  - destruct n as [|n]; simpl.
    + apply subsequence_skip. apply (IH 0%nat).
    + apply subsequence_keep. apply IH.
Qed.

Lemma subsequence_trans {A : Type} (a b c : list A) :
  subsequence a b -> subsequence b c -> subsequence a c.
Proof.
  intros Hab Hbc. revert a Hab.
  induction Hbc as [|x b c Hbc IH|x b c Hbc IH]; intros a Hab.
  - exact Hab.
  - apply subsequence_skip. apply IH, Hab.
  - inversion Hab; subst;
      [apply subsequence_skip | apply subsequence_keep]; apply IH; assumption.
Qed.

Lemma subsequence_map {A B : Type} (f : A -> B) (a b : list A) :
  subsequence a b -> subsequence (map f a) (map f b).
Proof.
  induction 1; simpl;
    [constructor | apply subsequence_skip | apply subsequence_keep]; assumption.
Qed.

Lemma subsequence_slice_to {A : Type} (l : list A) (n : Z) : subsequence (slice_to l n) l.
Proof. unfold slice_to. destruct (0 <=? n)%Z; apply subsequence_firstn. Qed.

Section Facts.

Variable feed : outcome (list FeedEntry).
Variable parse : str -> option datetime.
Variable now : Z.
Variable requests_get : str -> outcome Page.
Variable config : Config.

Lemma filter_step_kept cutoff base acc post :
  filter_step parse cutoff base acc post
  = acc ++ (if kept parse cutoff base post then [post] else []).
Proof.
  unfold filter_step, kept.
  destruct (published post) as [|c rest]; [rewrite List.app_nil_r; reflexivity |].
  destruct (parse (c :: rest)) as [post_date|]; [| reflexivity].
  assert (Hwall : wall (match utcoffset post_date with
                          | Some _ => replace_tzinfo_none post_date
                          | None => post_date
                          end) = wall post_date)
    by (destruct (utcoffset post_date); reflexivity).
  rewrite Hwall.
  destruct ((cutoff <=? wall post_date) && (wall post_date <=? base))%Z;
    [reflexivity | rewrite List.app_nil_r; reflexivity].
Qed.

Lemma filter_loop_kept cutoff base posts : forall acc,
  fold_left (filter_step parse cutoff base) posts acc
  = acc ++ List.filter (kept parse cutoff base) posts.
Proof.
  induction posts as [|post posts IH]; intros acc; simpl.
  - rewrite List.app_nil_r. reflexivity.
  - rewrite IH, filter_step_kept, <- List.app_assoc.
    destruct (kept parse cutoff base post); reflexivity.
Qed.

Lemma filter_recent_posts_kept (cfg : Config) posts reference_date :
  _filter_recent_posts parse now cfg posts reference_date
  = List.filter (kept parse (cutoff_date now cfg reference_date)
                      (base_date now reference_date)) posts.
Proof. unfold _filter_recent_posts. apply filter_loop_kept. Qed.

Lemma filter_filter_same {A : Type} (f : A -> bool) (l : list A) :
  List.filter f (List.filter f l) = List.filter f l.
Proof.
  induction l as [|x l IH]; simpl; [reflexivity |].
  destruct (f x) eqn:Hx; simpl; rewrite ?Hx, IH; reflexivity.
Qed.

(** The recency filter returns the kept posts in feed order, and
    filtering its own result again changes nothing. *)
Theorem filter_recent_posts_idempotent (posts : list Post) (reference_date : option Z) :
  let recent_posts := _filter_recent_posts parse now config posts reference_date in
  subsequence recent_posts posts /\
  _filter_recent_posts parse now config recent_posts reference_date = recent_posts.
Proof.
  intros recent_posts. subst recent_posts.
  rewrite !filter_recent_posts_kept. split.
  - apply subsequence_filter.
  - apply filter_filter_same.
Qed.

(** A longer lookback window never loses a post: when the filter returns
    under two configurations, what it keeps under the one is kept under
    the one with at least as many lookback days.  The filter returns
    when the cutoff date exists; otherwise the subtraction raises. *)
Theorem filter_recent_posts_monotone (narrow wide : Config) (posts : list Post)
    (reference_date : option Z) (kept_narrow kept_wide : list Post) (p : Post) :
  (days_lookback narrow <= days_lookback wide)%Z ->
  filter_recent_posts_checked parse now narrow posts reference_date
  = Returned kept_narrow ->
  filter_recent_posts_checked parse now wide posts reference_date
  = Returned kept_wide ->
  In p kept_narrow ->
  In p kept_wide.
Proof.
  intros Hle Hnarrow Hwide. unfold filter_recent_posts_checked in *.
  destruct (checked_cutoff_date now narrow reference_date); [| discriminate].
  destruct (checked_cutoff_date now wide reference_date); [| discriminate].
  injection Hnarrow as <-. injection Hwide as <-.
  rewrite !filter_recent_posts_kept, !filter_In.
  intros [Hin Hkept]. split; [exact Hin |].
  unfold kept, cutoff_date, timedelta_days, day_us in *.
  destruct (published p) as [|c rest]; [discriminate |].
  destruct (parse (c :: rest)) as [post_date|]; [| reflexivity].
  apply andb_true_iff in Hkept as [H1 H2].
  apply Z.leb_le in H1. apply andb_true_iff. split; [| exact H2].
  apply Z.leb_le. lia.
Qed.

(** The filter raises exactly when the cutoff date does not exist; a
    lookback of 800000 days from 2026 is before the year 1. *)
Lemma filter_recent_posts_checked_raises (cfg : Config) (posts : list Post)
    (reference_date : option Z) :
  filter_recent_posts_checked parse now cfg posts reference_date = Raised <->
  ~ ((-999999999 <= days_lookback cfg <= 999999999)%Z /\
     (0 <= cutoff_date now cfg reference_date <= datetime_max_wall)%Z).
Proof.
  unfold filter_recent_posts_checked, checked_cutoff_date.
  destruct (Z.leb_spec (-999999999) (days_lookback cfg));
    destruct (Z.leb_spec (days_lookback cfg) 999999999);
    destruct (Z.leb_spec 0 (cutoff_date now cfg reference_date));
    destruct (Z.leb_spec (cutoff_date now cfg reference_date) datetime_max_wall);
    cbn [andb]; split; intros Hraised;
    try reflexivity; try discriminate; try lia;
    exfalso; apply Hraised; lia.
Qed.

Lemma collect_loop_map batch : forall acc,
  exists details,
    fold_left (collect_step requests_get) batch acc = acc ++ details /\
    Forall2 (fun post detailed_post =>
               _scrape_post_detail requests_get post = Returned detailed_post)
            batch details.
Proof.
  induction batch as [|post batch IH]; intros acc; simpl.
  - exists []. rewrite List.app_nil_r. split; [reflexivity | constructor].
  - unfold collect_step at 2.
    destruct (_scrape_post_detail requests_get post) as [detailed_post|] eqn:Hscrape.
    + destruct (IH (acc ++ [detailed_post])) as (details & -> & Hall).
      exists (detailed_post :: details). rewrite <- List.app_assoc.
      split; [reflexivity | constructor; assumption].
    + unfold _scrape_post_detail in Hscrape.
      destruct (requests_get (link post)); discriminate.
Qed.

Lemma scrape_keeps_identity post detailed_post :
  _scrape_post_detail requests_get post = Returned detailed_post ->
  d_title detailed_post = title post /\ d_link detailed_post = link post /\
  d_published detailed_post = published post.
Proof.
  unfold _scrape_post_detail.
  destruct (requests_get (link post)); intros H; injection H as <-; simpl; auto.
Qed.

(** Every post that [collect_posts] returns is a feed entry that passed
    the recency filter, with the entry's title, link and published date;
    the returned posts follow the order of the feed. *)
Theorem collect_posts_provenance (reference_date : option Z) :
  let detailed_posts := collect_posts feed parse now requests_get config reference_date in
  exists entries chosen,
    (feed = Returned entries \/ (feed = Raised /\ entries = [])) /\
    subsequence chosen entries /\
    Forall (fun entry =>
              kept parse (cutoff_date now config reference_date)
                   (base_date now reference_date) (post_of_entry entry) = true)
           chosen /\
    map (fun d => (d_title d, d_link d, d_published d)) detailed_posts
    = map (fun entry => (get (entry_title entry) [], get (entry_link entry) [],
                         get (entry_published entry) []))
          chosen.
Proof.
  intros detailed_posts. subst detailed_posts. unfold collect_posts.
  set (entries := match feed with Returned entries => entries | Raised => [] end).
  assert (Hfeed : _fetch_rss_feed feed = map post_of_entry entries).
  { unfold _fetch_rss_feed, entries. destruct feed; reflexivity. }
  rewrite Hfeed, filter_recent_posts_kept.
  set (keepb := kept parse (cutoff_date now config reference_date)
                     (base_date now reference_date)).
  set (kept_entries := List.filter (fun entry => keepb (post_of_entry entry)) entries).
  assert (Hfilter : List.filter keepb (map post_of_entry entries)
                    = map post_of_entry kept_entries).
  { unfold kept_entries. clear. induction entries as [|entry entries IH]; simpl;
      [reflexivity |].
    destruct (keepb (post_of_entry entry)); simpl; rewrite IH; reflexivity. }
  rewrite Hfilter.
  assert (Hslice : exists chosen,
            slice_to (map post_of_entry kept_entries) (max_posts config)
            = map post_of_entry chosen /\ subsequence chosen kept_entries).
  { unfold slice_to. rewrite length_map.
    destruct (0 <=? max_posts config)%Z; rewrite firstn_map;
      eexists; (split; [reflexivity | apply subsequence_firstn]). }
  destruct Hslice as (chosen & -> & Hchosen).
  exists entries, chosen.
  split; [unfold entries; destruct feed; auto |].
  split; [eapply subsequence_trans; [exact Hchosen | apply subsequence_filter] |].
  split.
  - assert (Hall : Forall (fun entry => keepb (post_of_entry entry) = true) kept_entries).
    { apply List.Forall_forall. intros entry Hin.
      apply filter_In in Hin as [_ H]. exact H. }
    clear -Hchosen Hall. induction Hchosen; auto.
    + apply IHHchosen. apply List.Forall_cons_iff in Hall as [_ Hall]. exact Hall.
    + apply List.Forall_cons_iff in Hall as [Hx Hall]. constructor; auto.
  - destruct (collect_loop_map (map post_of_entry chosen) []) as (details & -> & Hall).
    simpl app. clear -Hall.
    remember (map post_of_entry chosen) as batch eqn:Hbatch.
    revert chosen Hbatch. induction Hall as [|post d batch details Hd Hall IH];
      intros [|entry chosen] Hbatch; try discriminate; [reflexivity |].
    simpl in Hbatch. injection Hbatch as -> ->.
    destruct (scrape_keeps_identity _ _ Hd) as (Ht & Hl & Hp).
    simpl. rewrite Ht, Hl, Hp, (IH chosen eq_refl). reflexivity.
Qed.

(** With a non-negative [max_posts], [collect_posts] returns at most
    [max_posts] posts, and never more than the feed has entries. *)
Theorem collect_posts_count (reference_date : option Z) :
  (0 <= max_posts config)%Z ->
  let detailed_posts := collect_posts feed parse now requests_get config reference_date in
  (Z.of_nat (length detailed_posts) <= max_posts config)%Z /\
  (length detailed_posts <= length (_fetch_rss_feed feed))%nat.
Proof.
  intros Hmax detailed_posts. subst detailed_posts. unfold collect_posts.
  destruct (collect_loop_map
              (slice_to (_filter_recent_posts parse now config (_fetch_rss_feed feed)
                           reference_date) (max_posts config)) [])
    as (details & -> & Hall).
  simpl app. apply Forall2_length in Hall. rewrite <- Hall.
  unfold slice_to. destruct (Z.leb_spec 0 (max_posts config)); [| lia].
  rewrite length_firstn, filter_recent_posts_kept.
  pose proof (filter_length_le (kept parse (cutoff_date now config reference_date)
                                  (base_date now reference_date)) (_fetch_rss_feed feed)).
  split; lia.
Qed.

(** When the detail page is fetched, the content is at most 5000
    characters long; it is the start of the first container that has
    text, and it is empty only when no container has text and the feed
    summary is empty too. *)
Theorem scrape_post_detail_content (post : Post) (page : Page) :
  requests_get (link post) = Returned page ->
  exists detailed_post,
    _scrape_post_detail requests_get post = Returned detailed_post /\
    (len (d_content detailed_post) <= 5000)%Z /\
    (forall c text, se_main_container page = Some (c :: text) ->
       d_content detailed_post = firstn 5000 (c :: text)) /\
    (d_content detailed_post = [] ->
       get (se_main_container page) [] = [] /\ summary post = [])  .
Proof.
  intros Hget. unfold _scrape_post_detail. rewrite Hget.
  eexists. split; [reflexivity |]. simpl d_content.
  change (slice_to (extract_content page post) 5000)
    with (firstn 5000 (extract_content page post)).
  split; [unfold len; rewrite length_firstn; lia |]. split.
  - intros c text Hse. unfold extract_content. rewrite Hse. reflexivity.
  - intros Hempty.
    assert (Hcontent : extract_content page post = []).
    { destruct (extract_content page post); [reflexivity | discriminate]. }
    unfold extract_content in Hcontent.
    destruct (get (se_main_container page) []) as [|c text]; [| discriminate].
    split; [reflexivity |].
    destruct (post_view_area page) as [[|? ?]|], (post_view page) as [[|? ?]|];
      try discriminate; exact Hcontent.
Qed.

End Facts.

Example huge_lookback_raises :
  filter_recent_posts_checked sample_parse 0 (mkConfig None (Some 800000%Z) None None)
    [post_jan5] (Some jan6) = Raised.
Proof. reflexivity. Qed.

Lemma filter_recent_posts_monotone_witness :
  (days_lookback (mkConfig None (Some 37%Z) None None)
   <= days_lookback (mkConfig None None None (Some 40%Z)))%Z /\
  filter_recent_posts_checked sample_parse 0 (mkConfig None (Some 37%Z) None None)
    [post_jan5; post_dec1] (Some jan6) = Returned [post_jan5; post_dec1] /\
  filter_recent_posts_checked sample_parse 0 (mkConfig None None None (Some 40%Z))
    [post_jan5; post_dec1] (Some jan6) = Returned [post_jan5; post_dec1] /\
  In post_dec1 [post_jan5; post_dec1] /\
  In post_dec1 [post_jan5; post_dec1].
Proof.
  assert (Hdays : (days_lookback (mkConfig None (Some 37%Z) None None)
                   <= days_lookback (mkConfig None None None (Some 40%Z)))%Z)
    by (vm_compute; discriminate).
  assert (Hnarrow :
            filter_recent_posts_checked sample_parse 0 (mkConfig None (Some 37%Z) None None)
              [post_jan5; post_dec1] (Some jan6) = Returned [post_jan5; post_dec1])
    by reflexivity.
  assert (Hwide :
            filter_recent_posts_checked sample_parse 0 (mkConfig None None None (Some 40%Z))
              [post_jan5; post_dec1] (Some jan6) = Returned [post_jan5; post_dec1])
    by reflexivity.
  assert (Hin : In post_dec1 [post_jan5; post_dec1])
    by (right; left; reflexivity).
  split; [exact Hdays |]. split; [exact Hnarrow |]. split; [exact Hwide |].
  split; [exact Hin |].
  exact (filter_recent_posts_monotone sample_parse 0 _ _ _ _ _ _ _ Hdays Hnarrow Hwide Hin).
Defined.

Lemma collect_posts_count_witness :
  (0 <= max_posts default_config)%Z /\
  (Z.of_nat (length (collect_posts (Returned [entry_jan5; entry_undated]) sample_parse 0
                       site_down default_config (Some jan6)))
   <= max_posts default_config)%Z /\
  (length (collect_posts (Returned [entry_jan5; entry_undated]) sample_parse 0
             site_down default_config (Some jan6))
   <= length (_fetch_rss_feed (Returned [entry_jan5; entry_undated])))%nat.
Proof.
  split; [vm_compute; discriminate |].
  apply (collect_posts_count (Returned [entry_jan5; entry_undated]) sample_parse 0
           site_down default_config (Some jan6)).
  vm_compute. discriminate.
Defined.

Lemma scrape_post_detail_content_witness :
  site_long (link post_jan5) = Returned long_page /\
  exists detailed_post,
    _scrape_post_detail site_long post_jan5 = Returned detailed_post /\
    (len (d_content detailed_post) <= 5000)%Z /\
    (forall c text, se_main_container long_page = Some (c :: text) ->
       d_content detailed_post = firstn 5000 (c :: text)) /\
    (d_content detailed_post = [] ->
       get (se_main_container long_page) [] = [] /\ summary post_jan5 = []).
Proof.
  split; [reflexivity |].
  apply (scrape_post_detail_content site_long post_jan5 long_page). reflexivity.
Defined.

(** The cap of 5000 characters does not apply to the feed summary used
    when the request fails. *)
Example failed_request_content_uncapped :
  let post := mkPost (u8 "t") (u8 "l") (u8 "p") (repeat 97%N (Z.to_nat 6000)) in
  option_map (fun d => length (d_content d))
             (match _scrape_post_detail site_down post with
              | Returned d => Some d
              | Raised => None
              end) = Some (Z.to_nat 6000).
Proof. vm_compute. reflexivity. Qed.

End CollectorMore.


(* ================================================================== *)
(** * analyzer.py: analyze_posts, categorize_posts and the summary     *)
(* ================================================================== *)

Module AnalyzerMore.

Import Analyzer.

(** The dict [{**post, 'category': ..., 'summary': ...}]. *)
Record AnalyzedPost : Type := mkAnalyzed {
  post : Post;
  category : str;
  summary : str
}.

(** [add_to category p categorized]: the statement
    [categorized[category].append(p)], with the bucket created at the end
    of the dict when the key is new. *)
Fixpoint add_to (key : str) (p : AnalyzedPost) (categorized : list (str * list AnalyzedPost))
  : list (str * list AnalyzedPost) :=
  match categorized with
  | [] => [(key, [p])]
  | (key', posts) :: rest =>
      if str_eqb key' key then (key', posts ++ [p]) :: rest
      else (key', posts) :: add_to key p rest
  end.

(** [categorize_posts]: a dict from category to posts, in insertion
    order. *)
Definition categorize_posts (analyzed_posts : list AnalyzedPost)
  : list (str * list AnalyzedPost) :=
  fold_left (fun categorized p => add_to (category p) p categorized) analyzed_posts [].

Section WithLower.

(** [str.lower] *)
Variable lower : str -> str.

Definition _analyze_single_post (p : Post) : outcome (str * str) :=
  match _classify_category lower p with
  | Returned category => Returned (category, _create_simple_summary (Some (content p)))
  | Raised => Raised
  end.

(** The body of the loop of [analyze_posts]. *)
Definition analyze_step (analyzed_posts : list AnalyzedPost) (p : Post)
  : list AnalyzedPost :=
  match _analyze_single_post p with
  | Returned (category, summary) => analyzed_posts ++ [mkAnalyzed p category summary]
  | Raised =>
      analyzed_posts
      ++ [mkAnalyzed p other (_create_simple_summary (Some (content p)))]
  end.

Definition analyze_posts (posts : list Post) : list AnalyzedPost :=
  fold_left analyze_step posts [].

End WithLower.

(** ** Facts *)

Lemma str_eqb_eq a : forall b, str_eqb a b = true <-> a = b.
Proof.
  induction a as [|x a IH]; intros [|y b]; simpl; split; try discriminate; auto.
  - rewrite andb_true_iff, N.eqb_eq, IH. intros [-> ->]. reflexivity.
  - intros H. injection H as -> ->. rewrite N.eqb_refl. apply IH. reflexivity.
Qed.

Lemma filter_nil {A : Type} (f : A -> bool) (l : list A) :
  (forall x, In x l -> f x = false) -> List.filter f l = [].
Proof.
  induction l as [|x l IH]; intros H; simpl; [reflexivity |].
  rewrite (H x (or_introl eq_refl)). apply IH. intros y Hy. apply H. right. exact Hy.
Qed.

Lemma str_eqb_neq a b : str_eqb a b = false <-> a <> b.
Proof.
  rewrite <- str_eqb_eq. destruct (str_eqb a b); split; congruence.
Qed.

(** The invariant of the grouping loop: the keys are distinct, and each
    bucket holds, in order, the posts seen so far of its category, at
    least one. *)
Definition grouped (seen : list AnalyzedPost) (categorized : list (str * list AnalyzedPost))
  : Prop :=
  List.NoDup (map fst categorized) /\
  (forall key posts, In (key, posts) categorized ->
     posts <> [] /\ posts = List.filter (fun p => str_eqb (category p) key) seen) /\
  (forall p, In p seen -> In (category p) (map fst categorized)).

Lemma add_to_keys key p categorized :
  map fst (add_to key p categorized)
  = if existsb (fun entry => str_eqb (fst entry) key) categorized
    then map fst categorized
    else map fst categorized ++ [key].
Proof.
  induction categorized as [|[key' posts] rest IH]; simpl; [reflexivity |].
  destruct (str_eqb key' key); simpl; [reflexivity |].
  rewrite IH. destruct (existsb _ rest); reflexivity.
Qed.

Lemma existsb_key key (categorized : list (str * list AnalyzedPost)) :
  existsb (fun entry => str_eqb (fst entry) key) categorized = true
  <-> In key (map fst categorized).
Proof.
  rewrite existsb_exists, in_map_iff. split.
  - intros (entry & Hin & Heq). apply str_eqb_eq in Heq. eauto.
  - intros (entry & Heq & Hin). exists entry. split; [exact Hin |].
    apply str_eqb_eq. exact Heq.
Qed.

Lemma add_to_in key p categorized key0 posts0 :
  List.NoDup (map fst categorized) ->
  In (key0, posts0) (add_to key p categorized) ->
  (key0 <> key /\ In (key0, posts0) categorized) \/
  (key0 = key /\
   ((exists posts, In (key, posts) categorized /\ posts0 = posts ++ [p]) \/
    (~ In key (map fst categorized) /\ posts0 = [p]))).
Proof.
  induction categorized as [|[key' posts] rest IH]; simpl; intros Hnodup Hin.
  - destruct Hin as [Hin | []]. injection Hin as <- <-. right. auto.
  - apply List.NoDup_cons_iff in Hnodup as [Hfresh Hnodup].
    destruct (str_eqb key' key) eqn:Hkey.
    + apply str_eqb_eq in Hkey as ->. destruct Hin as [Hin | Hin].
      * injection Hin as <- <-. right. split; [reflexivity |]. left. eauto.
      * left. split; [| auto]. intros ->. apply Hfresh.
        apply in_map_iff. exists (key, posts0). auto.
    + apply str_eqb_neq in Hkey. destruct Hin as [Hin | Hin].
      * injection Hin as <- <-. left. auto.
      * destruct (IH Hnodup Hin) as [(Hne & H) | (-> & [(posts1 & H & ->) | (Hnot & ->)])].
        -- left. auto.
        -- right. split; [reflexivity |]. left. eauto.
        -- right. split; [reflexivity |]. right. split; [| reflexivity].
           intros [H | H]; [apply Hkey; exact H | apply Hnot; exact H].
Qed.

Lemma grouped_step seen categorized p :
  grouped seen categorized ->
  grouped (seen ++ [p]) (add_to (category p) p categorized).
Proof.
  intros (Hnodup & Hbuckets & Hcover).
  assert (Hfilter : forall key,
            List.filter (fun q => str_eqb (category q) key) (seen ++ [p])
            = List.filter (fun q => str_eqb (category q) key) seen
              ++ (if str_eqb (category p) key then [p] else [])).
  { intros key. rewrite List.filter_app. simpl.
    destruct (str_eqb (category p) key); reflexivity. }
  split; [| split].
  - rewrite add_to_keys.
    destruct (existsb _ categorized) eqn:Hex; [exact Hnodup |].
    apply List.NoDup_app; [exact Hnodup | repeat constructor; intros [] |].
    intros key Hin [<- | []].
    apply existsb_key in Hin. congruence.
  - intros key posts Hin. rewrite Hfilter.
    destruct (add_to_in _ _ _ _ _ Hnodup Hin)
      as [(Hne & H) | (-> & [(posts1 & H & ->) | (Hnot & ->)])].
    + destruct (Hbuckets _ _ H) as (Hne' & ->).
      assert (Hkey : str_eqb (category p) key = false) by (apply str_eqb_neq; congruence).
      rewrite Hkey, List.app_nil_r. auto.
    + destruct (Hbuckets _ _ H) as (_ & ->).
      assert (Hkey : str_eqb (category p) (category p) = true)
        by (apply str_eqb_eq; reflexivity).
      rewrite Hkey. split; [| reflexivity].
      intros Hnil. apply List.app_eq_nil in Hnil as [_ Hnil]. discriminate.
    + assert (Hkey : str_eqb (category p) (category p) = true)
        by (apply str_eqb_eq; reflexivity).
      rewrite Hkey. split; [discriminate |].
      replace (List.filter (fun q => str_eqb (category q) (category p)) seen) with
        (@nil AnalyzedPost); [reflexivity |].
      symmetry. apply filter_nil. intros q Hq. apply str_eqb_neq.
      intros Heq. apply Hnot. rewrite <- Heq. apply Hcover, Hq.
  - intros q Hq. rewrite add_to_keys.
    apply in_app_iff in Hq as [Hq | [<- | []]].
    + destruct (existsb _ categorized); [| apply in_app_iff; left]; apply Hcover, Hq.
    + destruct (existsb _ categorized) eqn:Hex.
      * apply existsb_key, Hex.
      * apply in_app_iff. right. left. reflexivity.
Qed.

Lemma grouped_loop analyzed_posts : forall seen categorized,
  grouped seen categorized ->
  grouped (seen ++ analyzed_posts)
          (fold_left (fun categorized p => add_to (category p) p categorized)
                     analyzed_posts categorized).
Proof.
  induction analyzed_posts as [|p analyzed_posts IH]; intros seen categorized Hinv; simpl.
  - rewrite List.app_nil_r. exact Hinv.
  - replace (seen ++ p :: analyzed_posts) with ((seen ++ [p]) ++ analyzed_posts)
      by (rewrite <- List.app_assoc; reflexivity).
    apply IH, grouped_step, Hinv.
Qed.

(** [categorize_posts] has one bucket per category that occurs, never an
    empty one, and the bucket of a category holds exactly the posts of
    that category, in their original order. *)
Theorem categorize_posts_buckets (analyzed_posts : list AnalyzedPost) :
  let categorized := categorize_posts analyzed_posts in
  List.NoDup (map fst categorized) /\
  (forall key posts, In (key, posts) categorized ->
     posts <> [] /\
     posts = List.filter (fun p => str_eqb (category p) key) analyzed_posts) /\
  (forall p, In p analyzed_posts -> In (category p) (map fst categorized)).
Proof.
  apply (grouped_loop analyzed_posts [] []).
  split; [constructor |]. split; [intros ? ? [] | intros ? []].
Qed.

Lemma add_to_permutation key p categorized :
  Permutation (concat (map snd (add_to key p categorized)))
              (p :: concat (map snd categorized)).
Proof.
  induction categorized as [|[key' posts] rest IH]; simpl; [reflexivity |].
  destruct (str_eqb key' key); simpl.
  - rewrite <- List.app_assoc. simpl.
    symmetry. apply Permutation_middle.
  - rewrite IH. symmetry. apply Permutation_middle.
Qed.

(** Grouping neither loses nor duplicates a post: the buckets together
    hold the analysed posts, and their sizes add up to the number of
    posts. *)
Theorem categorize_posts_conserves (analyzed_posts : list AnalyzedPost) :
  let categorized := categorize_posts analyzed_posts in
  Permutation (concat (map snd categorized)) analyzed_posts /\
  list_sum (map (fun entry => length (snd entry)) categorized) = length analyzed_posts.
Proof.
  intros categorized. subst categorized.
  assert (Hperm : Permutation (concat (map snd (categorize_posts analyzed_posts)))
                              analyzed_posts).
  { unfold categorize_posts.
    assert (Hgen : forall categorized,
              Permutation
                (concat (map snd (fold_left (fun categorized p =>
                                               add_to (category p) p categorized)
                                            analyzed_posts categorized)))
                (concat (map snd categorized) ++ analyzed_posts)).
    { induction analyzed_posts as [|p analyzed_posts IH]; intros categorized; simpl.
      - rewrite List.app_nil_r. reflexivity.
      - rewrite IH, add_to_permutation. apply Permutation_middle. }
    apply (Hgen []). }
  split; [exact Hperm |].
  rewrite <- (Permutation_length Hperm).
  generalize (categorize_posts analyzed_posts). intros categorized.
  induction categorized as [|[key posts] rest IH]; simpl; [reflexivity |].
  rewrite length_app, IH. reflexivity.
Qed.

(** The categories the classifier can return are categories of the
    report's canonical order. *)
Lemma table_categories_canonical :
  Forall (fun key => In key Report.category_order) (other :: map fst category_keywords).
Proof.
  rewrite List.Forall_forall. intros key Hkey.
  assert (Hcheck : forallb (fun k => existsb (str_eqb k) Report.category_order)
                           (other :: map fst category_keywords) = true)
    by (vm_compute; reflexivity).
  rewrite forallb_forall in Hcheck. specialize (Hcheck key Hkey).
  apply existsb_exists in Hcheck as (key' & Hin & Heq).
  apply str_eqb_eq in Heq as ->. exact Hin.
Qed.

Section AnalyzeFacts.

Variable lower : str -> str.

Lemma max_key_from_in rest : forall best best_score,
  In (max_key_from best best_score rest) (best :: map fst rest).
Proof.
  induction rest as [|[key score] rest IH]; intros best best_score; simpl.
  - left. reflexivity.
  - destruct (best_score <? score)%Z.
    + right. apply (IH key score).
    + destruct (IH best best_score) as [H | H]; [left | right; right]; exact H.
Qed.

(** The classifier returns, and what it returns is the catch-all category
    or a category of the keyword table. *)
Lemma classify_category_range (p : Post) :
  exists result,
    _classify_category lower p = Returned result /\
    (result = other \/ In result (map fst category_keywords)).
Proof.
  unfold _classify_category, scores.
  destruct category_keywords as [|[first first_keywords] table] eqn:Htable;
    [destruct (category_keywords_nonempty Htable) |].
  simpl map. simpl max_value. simpl max_key.
  cbv beta iota.
  match goal with |- context [(0 <? ?top)%Z] => destruct (0 <? top)%Z end;
    eexists; (split; [reflexivity |]); [| left; reflexivity].
  right.
  pose proof (max_key_from_in
                (map (fun entry => (fst entry, category_score lower p (snd entry))) table)
                first (category_score lower p first_keywords)) as Hin.
  assert (Hfst : map fst (map (fun entry => (fst entry, category_score lower p (snd entry)))
                              table) = map fst table)
    by (rewrite List.map_map; apply List.map_ext; reflexivity).
  rewrite Hfst in Hin. exact Hin.
Qed.

Lemma analyze_step_eq analyzed_posts p :
  exists a,
    analyze_step lower analyzed_posts p = analyzed_posts ++ [a] /\
    post a = p /\
    _classify_category lower p = Returned (category a) /\
    summary a = _create_simple_summary (Some (content p)).
Proof.
  destruct (classify_category_range p) as (result & Hresult & _).
  unfold analyze_step, _analyze_single_post. rewrite Hresult.
  remember (_create_simple_summary (Some (content p))) as text eqn:Htext.
  exists (mkAnalyzed p result text).
  split; [reflexivity |]. split; [reflexivity |]. split; reflexivity.
Qed.

Lemma fold_left_step {A B : Type} (f : A -> B -> A) (x : B) (l : list B) (a : A) :
  fold_left f (x :: l) a = fold_left f l (f a x).
Proof. reflexivity. Qed.

Lemma analyze_loop posts : forall acc,
  exists analysed,
    fold_left (analyze_step lower) posts acc = acc ++ analysed /\
    map post analysed = posts /\
    Forall (fun a =>
              _classify_category lower (post a) = Returned (category a) /\
              summary a = _create_simple_summary (Some (content (post a))))
           analysed.
Proof.
  induction posts as [|p posts IH]; intros acc.
  - exists []. split; [symmetry; apply List.app_nil_r |].
    split; [reflexivity | constructor].
  - destruct (analyze_step_eq acc p) as (a & Hstep & Hpost & Hcategory & Hsummary).
    rewrite fold_left_step, Hstep.
    destruct (IH (acc ++ [a])) as (analysed & Heq & Hposts & Hall).
    exists (a :: analysed).
    split; [rewrite Heq, <- List.app_assoc; reflexivity |].
    split; [cbn [map]; rewrite Hposts, Hpost; reflexivity |].
    apply List.Forall_cons; [| exact Hall].
    rewrite Hpost. split; [exact Hcategory | exact Hsummary].
Qed.

(** [analyze_posts] returns one analysed post per input post, in the
    same order, each with the category the classifier gives it and the
    summary of its content; no post is dropped. *)
Theorem analyze_posts_keeps_every_post (posts : list Post) :
  let analysed := analyze_posts lower posts in
  map post analysed = posts /\
  Forall (fun a =>
            _classify_category lower (post a) = Returned (category a) /\
            summary a = _create_simple_summary (Some (content (post a))))
         analysed.
Proof.
  intros analysed. subst analysed. unfold analyze_posts.
  destruct (analyze_loop posts []) as (analysed & -> & Hposts & Hall).
  split; [exact Hposts | exact Hall].
Qed.

(** Every category under which the analysed posts are grouped is one of
    the six categories of the report's canonical order, so the report
    never renders a category after the canonical ones. *)
Theorem pipeline_categories_canonical (posts : list Post) :
  let categorized := categorize_posts (analyze_posts lower posts) in
  Forall (fun key => In key Report.category_order) (map fst categorized) /\
  List.filter (fun key => negb (existsb (str_eqb key) Report.category_order))
              (map fst categorized) = [].
Proof.
  intros categorized.
  assert (Hall : Forall (fun key => In key Report.category_order) (map fst categorized)).
  { apply List.Forall_forall. intros key Hkey.
    apply in_map_iff in Hkey as ([key' bucket] & <- & Hin). cbn [fst].
    destruct (grouped_loop (analyze_posts lower posts) [] []) as (_ & Hbuckets & _).
    { split; [constructor |]. split; [intros ? ? [] | intros ? []]. }
    destruct (Hbuckets key' bucket Hin) as (Hne & Hbucket).
    destruct bucket as [|a bucket]; [congruence |].
    assert (Ha : In a (List.filter (fun p => str_eqb (category p) key')
                                   ([] ++ analyze_posts lower posts)))
      by (rewrite <- Hbucket; left; reflexivity).
    apply filter_In in Ha as [Ha Hkey]. apply str_eqb_eq in Hkey as <-.
    cbn [app] in Ha. unfold analyze_posts in Ha.
    destruct (analyze_loop posts []) as (analysed & Heq & _ & Hclass).
    rewrite Heq in Ha. cbn [app] in Ha.
    rewrite List.Forall_forall in Hclass. destruct (Hclass a Ha) as [Hresult _].
    destruct (classify_category_range (post a)) as (result & Hresult' & Hrange).
    rewrite Hresult in Hresult'. injection Hresult' as ->.
    pose proof table_categories_canonical as Htable.
    rewrite List.Forall_forall in Htable. apply Htable.
    destruct Hrange as [-> | Hrange]; [left; reflexivity | right; exact Hrange]. }
  split; [exact Hall |].
  apply filter_nil. intros key Hkey.
  rewrite List.Forall_forall in Hall. specialize (Hall key Hkey).
  apply negb_false_iff.
  apply existsb_exists. exists key. split; [exact Hall |].
  apply str_eqb_eq. reflexivity.
Qed.

End AnalyzeFacts.

Lemma length_strip s : (length (strip s) <= length s)%nat.
Proof.
  unfold strip, rstrip. rewrite length_rev.
  pose proof (length_lstrip (rev (lstrip s))) as H1.
  pose proof (length_lstrip s) as H2.
  rewrite length_rev in H1. lia.
Qed.

Lemma truncated_bounded content :
  (len (truncated content) <= 203)%Z /\ exists body, truncated content = body ++ [46%N].
Proof.
  unfold truncated. change (u8 "...") with ([46; 46] ++ [46])%N. split.
  - unfold len. rewrite !length_app. simpl length.
    pose proof (length_strip (slice_to content 200)) as H1.
    change (slice_to content 200) with (firstn 200 content) in *.
    rewrite length_firstn in H1. lia.
  - exists (strip (slice_to content 200) ++ [46; 46]%N).
    rewrite <- List.app_assoc. reflexivity.
Qed.

(** Whatever the content, the summary is at most 303 characters long
    (two sentences of at most 300 characters together, the joining period
    and space, and the closing period) and ends with a period. *)
Theorem summary_bounded (content : option str) :
  (len (_create_simple_summary content) <= 303)%Z /\
  exists body, _create_simple_summary content = body ++ [46%N].
Proof.
  destruct content as [[|c rest]|];
    try (split; [vm_compute; discriminate |
                 exists (removelast placeholder); vm_compute; reflexivity]).
  unfold _create_simple_summary.
  destruct (truncated_bounded (c :: rest)) as (Hlen & body & Hbody).
  destruct (long_sentences (re_split (c :: rest))) as [|first others];
    [split; [lia | eauto] |].
  rewrite select_first_two.
  destruct (Z.ltb_spec 300 (len first)) as [Hfirst | Hfirst]; [split; [lia | eauto] |].
  change (u8 ".") with [46%N].
  destruct others as [|second others].
  - cbn [join]. split; [| eauto].
    unfold len in *. rewrite length_app. simpl length. lia.
  - destruct (Z.ltb_spec 300 (len first + len second)) as [Hboth | Hboth].
    + cbn [join]. split; [| eauto].
      unfold len in *. rewrite length_app. simpl length. lia.
    + cbn [join]. change (u8 ". ") with [46; 32]%N. split; [| eauto].
      unfold len in *. rewrite !length_app. simpl length. lia.
Qed.

End AnalyzerMore.


(* ================================================================== *)
(** * ajunews_collector.py: further properties of collect_posts        *)
(* ================================================================== *)

Module AjunewsMore.

Import Ajunews.
Import CollectorMore.

Lemma subsequence_app {A : Type} (a b c d : list A) :
  subsequence a b -> subsequence c d -> subsequence (a ++ c) (b ++ d).
Proof.
  induction 1; intros Hcd; simpl;
    [exact Hcd | apply subsequence_skip | apply subsequence_keep]; auto.
Qed.

Section Facts.

Variable fromisoformat : str -> option datetime.
Variable year : datetime -> Z.
Variable now : Z.
Variable now_iso : str.
Variable requests_get : str -> outcome Page.
Variable cache_file : CacheFile.
Variable max_posts : Z.
Variable year_filter : Z.

(** What holds of every post the loop accepts. *)
Definition accepted (p : Post) : Prop :=
  _is_now_future_column (title p) = true /\
  _is_valid_post fromisoformat year year_filter p = true /\
  author p = u8 "곽재원" /\
  source p = u8 "곽재원의 Now&Future (아주경제)".

Lemma scrape_article_some candidate p :
  _scrape_article now_iso requests_get candidate = Returned (Some p) ->
  url p = candidate /\ _is_now_future_column (title p) = true /\
  author p = u8 "곽재원" /\ source p = u8 "곽재원의 Now&Future (아주경제)".
Proof.
  unfold _scrape_article.
  destruct (requests_get candidate) as [page|]; [| discriminate].
  destruct (_is_now_future_column (_extract_title page)) eqn:Hcolumn;
    cbn [negb]; cbv iota; [| discriminate].
  intros H. injection H as <-. cbn [url title author source]. auto.
Qed.

Lemma collect_loop_accepts candidates : forall posts requested,
  Forall accepted posts -> subsequence (map url posts) requested ->
  let result :=
    collect_loop fromisoformat year now_iso requests_get max_posts year_filter
                 candidates posts requested in
  Forall accepted (fst result) /\ subsequence (map url (fst result)) (snd result).
Proof.
  induction candidates as [|candidate rest IH]; intros posts requested Hall Hsub;
    cbn [collect_loop]; [split; assumption |].
  assert (Hskip : subsequence (map url posts) (requested ++ [candidate])).
  { rewrite <- (List.app_nil_r (map url posts)).
    apply subsequence_app; [exact Hsub |]. apply subsequence_skip. constructor. }
  destruct (_scrape_article now_iso requests_get candidate) as [[p|]|] eqn:Hscrape;
    try (apply IH; assumption).
  destruct (_is_valid_post fromisoformat year year_filter p) eqn:Hvalid;
    try (apply IH; assumption).
  destruct (scrape_article_some _ _ Hscrape) as (Hurl & Hcolumn & Hauthor & Hsource).
  assert (Hall' : Forall accepted (posts ++ [p])).
  { apply List.Forall_app. split; [exact Hall |].
    constructor; [| constructor]. unfold accepted. auto. }
  assert (Hsub' : subsequence (map url (posts ++ [p])) (requested ++ [candidate])).
  { rewrite map_app. apply subsequence_app; [exact Hsub |].
    cbn [map]. rewrite Hurl. apply subsequence_keep. constructor. }
  destruct (max_posts <=? Z.of_nat (length (posts ++ [p])))%Z.
  - split; assumption.
  - apply IH; assumption.
Qed.

(** Every post that [collect_posts] returns has a title the column
    predicate accepts, passes the year filter, carries the fixed author
    and source, and was scraped from a requested URL; the posts follow
    the order of the requests. *)
Theorem collect_posts_accepts_only_columns :
  let result :=
    collect_posts fromisoformat year now now_iso requests_get cache_file
                  max_posts year_filter in
  Forall accepted (fst result) /\ subsequence (map url (fst result)) (snd result).
Proof.
  unfold collect_posts. apply collect_loop_accepts; constructor.
Qed.

Lemma collect_loop_exhausts candidates : forall posts requested,
  let result :=
    collect_loop fromisoformat year now_iso requests_get max_posts year_filter
                 candidates posts requested in
  (length posts <= length (fst result))%nat /\
  ((Z.of_nat (length (fst result)) < max_posts)%Z ->
   snd result = requested ++ candidates).
Proof.
  induction candidates as [|candidate rest IH]; intros posts requested;
    cbn [collect_loop].
  - split; [reflexivity |]. intros _. cbn [snd]. rewrite List.app_nil_r. reflexivity.
  - assert (Hskip :
      let result :=
        collect_loop fromisoformat year now_iso requests_get max_posts year_filter
                     rest posts (requested ++ [candidate]) in
      (length posts <= length (fst result))%nat /\
      ((Z.of_nat (length (fst result)) < max_posts)%Z ->
       snd result = requested ++ candidate :: rest)).
    { destruct (IH posts (requested ++ [candidate])) as [Hlen Hall].
      split; [exact Hlen |]. intros Hlt. rewrite (Hall Hlt), <- List.app_assoc.
      reflexivity. }
    destruct (_scrape_article now_iso requests_get candidate) as [[p|]|]; try exact Hskip.
    destruct (_is_valid_post fromisoformat year year_filter p); try exact Hskip.
    destruct (Z.leb_spec max_posts (Z.of_nat (length (posts ++ [p])))) as [Hfull | Hroom].
    + cbn [fst snd]. rewrite length_app in *. simpl length in *. split; [lia |].
      intros Hlt. lia.
    + destruct (IH (posts ++ [p]) (requested ++ [candidate])) as [Hlen Hall].
      rewrite length_app in Hlen. simpl length in Hlen.
      split; [lia |]. intros Hlt. rewrite (Hall Hlt), <- List.app_assoc. reflexivity.
Qed.

(** The loop stops early only for having enough posts: when fewer than
    [max_posts] posts come back, every candidate of the slice, the first
    2 x [max_posts] URLs of the list, was requested. *)
Theorem collect_posts_short_means_exhausted :
  let url_list := snd (_load_or_generate_url_list fromisoformat now cache_file) in
  let result :=
    collect_posts fromisoformat year now now_iso requests_get cache_file
                  max_posts year_filter in
  (Z.of_nat (length (fst result)) < max_posts)%Z ->
  snd result = slice_to url_list (max_posts * 2).
Proof.
  intros url_list result Hshort. subst result. unfold collect_posts in *.
  fold url_list in Hshort |- *.
  destruct (collect_loop_exhausts (slice_to url_list (max_posts * 2)) [] []) as [_ Hall].
  exact (Hall Hshort).
Qed.

End Facts.

Lemma collect_posts_short_means_exhausted_witness :
  (Z.of_nat (length (fst (collect_posts sample_fromisoformat sample_year jan6_noon
                            (u8 "2026-01-06T12:00:00") Ajunews.site_down
                            (cache_updated "2026-01-05T12:01:00") 2 2026))) < 2)%Z /\
  snd (collect_posts sample_fromisoformat sample_year jan6_noon
         (u8 "2026-01-06T12:00:00") Ajunews.site_down
         (cache_updated "2026-01-05T12:01:00") 2 2026)
  = slice_to (snd (_load_or_generate_url_list sample_fromisoformat jan6_noon
                     (cache_updated "2026-01-05T12:01:00"))) (2 * 2).
Proof.
  assert (Hshort :
    (Z.of_nat (length (fst (collect_posts sample_fromisoformat sample_year jan6_noon
                              (u8 "2026-01-06T12:00:00") Ajunews.site_down
                              (cache_updated "2026-01-05T12:01:00") 2 2026))) < 2)%Z)
    by (vm_compute; reflexivity).
  split; [exact Hshort |].
  exact (collect_posts_short_means_exhausted sample_fromisoformat sample_year jan6_noon
           (u8 "2026-01-06T12:00:00") Ajunews.site_down
           (cache_updated "2026-01-05T12:01:00") 2 2026 Hshort).
Defined.

End AjunewsMore.


(* ================================================================== *)
(** * multi_source_collector.py: initialisation, stamping, totals      *)
(* ================================================================== *)

Module MultiSourceMore.

Import MultiSource.

Definition naver_blog : str := u8 "naver_blog".
Definition ajunews_column : str := u8 "ajunews_column".

(** [data_sources_config.get(source, {}).get('enabled', False)]; the
    [enabled] field of a source that is present holds the value this
    lookup gives. *)
Definition is_enabled (data_sources_config : gmap str SourceConfig) (source_name : str)
  : bool :=
  match data_sources_config !! source_name with
  | Some source_config => enabled source_config
  | None => false
  end.

(** [NaverBlogCollector.__init__]: the configuration is taken from
    [config['data_sources']['naver_blog']], else from [config['blog']];
    with neither the constructor raises ValueError.  [has_blog] tells
    whether the configuration has the key [blog]. *)
Definition naver_blog_init (data_sources_config : gmap str SourceConfig) (has_blog : bool)
  : outcome unit :=
  match data_sources_config !! naver_blog with
  | Some _ => Returned tt
  | None => if has_blog then Returned tt else Raised
  end.

(** The value of [feeds_dir] in [config['storage']]. *)
Inductive FeedsDir : Type :=
| feeds_dir_absent                    (* no key [feeds_dir]: the default 'feeds' *)
| feeds_dir_text (path : str)
| feeds_dir_other.                    (* a number, a list, [None]: no path *)

(** The value of [config['storage']]. *)
Inductive Storage : Type :=
| storage_absent                      (* no key [storage]: the default {} *)
| storage_mapping (feeds_dir : FeedsDir)
| storage_other.                      (* [storage: None], a string, a list: no [get] *)

(** [AjunewsCollector.__init__] for an enabled source, whose settings
    are then a mapping read with defaults: [self.feeds_dir].
    [config.get('storage', {}).get(...)] raises AttributeError on a
    storage that is no mapping, and [os.path.join(self.feeds_dir, ...)]
    raises TypeError on a directory that is no path. *)
Definition ajunews_init (storage : Storage) : outcome str :=
  match storage with
  | storage_absent => Returned (u8 "feeds")
  | storage_mapping feeds_dir_absent => Returned (u8 "feeds")
  | storage_mapping (feeds_dir_text path) => Returned path
  | storage_mapping feeds_dir_other => Raised
  | storage_other => Raised
  end.

(** [_initialize_collectors]: the keys of [self.collectors], in insertion
    order.  A constructor that raises is logged and its source left
    out. *)
Definition _initialize_collectors (data_sources_config : gmap str SourceConfig)
    (has_blog : bool) (storage : Storage) : list str :=
  (if is_enabled data_sources_config naver_blog
   then match naver_blog_init data_sources_config has_blog with
        | Returned _ => [naver_blog]
        | Raised => []                      (* [except]: logged *)
        end
   else [])
  ++ (if is_enabled data_sources_config ajunews_column
      then match ajunews_init storage with
           | Returned _ => [ajunews_column]
           | Raised => []                   (* [except]: logged *)
           end
      else []).

(** A run of the orchestrator: the collectors that were initialised, each
    with what its [collect_posts] does. *)
Definition run_collectors (data_sources_config : gmap str SourceConfig) (has_blog : bool)
    (storage : Storage) (collect : str -> outcome (list Post))
  : list (str * outcome (list Post)) :=
  map (fun source_name => (source_name, collect source_name))
      (_initialize_collectors data_sources_config has_blog storage).

(** The sum of the counts recorded in [source_stats]. *)
Definition stats_total (source_stats : gmap str Z) : Z :=
  map_fold (fun _ count total => (count + total)%Z) 0%Z source_stats.

(** ** Facts *)

Lemma source_names_distinct : naver_blog <> ajunews_column.
Proof. vm_compute. discriminate. Qed.

Section Facts.

Variable data_sources_config : gmap str SourceConfig.

(** Whether the constructor of a source succeeds once the source is
    enabled: the blog finds its settings under [data_sources], the
    column source needs a usable [storage]. *)
Definition constructed (storage : Storage) (source_name : str) : bool :=
  if str_eqb source_name ajunews_column
  then match ajunews_init storage with
       | Returned _ => true
       | Raised => false
       end
  else true.

Lemma initialize_collectors_names (has_blog : bool) (storage : Storage) :
  _initialize_collectors data_sources_config has_blog storage
  = List.filter (fun source_name =>
                   is_enabled data_sources_config source_name
                   && constructed storage source_name)
                [naver_blog; ajunews_column].
Proof.
  unfold _initialize_collectors, naver_blog_init. cbn [List.filter].
  change (constructed storage naver_blog) with true.
  change (constructed storage ajunews_column)
    with (match ajunews_init storage with Returned _ => true | Raised => false end).
  rewrite andb_true_r. unfold is_enabled at 1 3.
  destruct (data_sources_config !! naver_blog) as [source_config|];
    [destruct (enabled source_config) |];
    destruct (is_enabled data_sources_config ajunews_column);
    destruct (ajunews_init storage); reflexivity.
Qed.

(** The collectors that are run are the enabled sources whose
    constructor did not raise, the blog first.  The blog is run exactly
    when it is enabled.  The column source is run exactly when it is
    enabled and its storage setting is absent or a mapping whose
    [feeds_dir] is absent or a path; with any other storage the
    constructor raises and the enabled source is left out.  A source
    that is not run gets no entry in [source_stats]. *)
Theorem initialize_collectors_enabled_only (has_blog : bool) (storage : Storage)
    (collect : str -> outcome (list Post)) :
  let collectors := run_collectors data_sources_config has_blog storage collect in
  let result := collect_all_sources data_sources_config collectors in
  (exists run_blog run_column : bool,
     map fst collectors
     = (if run_blog then [naver_blog] else [])
       ++ (if run_column then [ajunews_column] else []) /\
     run_blog = is_enabled data_sources_config naver_blog /\
     (run_column = true <->
      is_enabled data_sources_config ajunews_column = true /\
      (storage = storage_absent \/
       storage = storage_mapping feeds_dir_absent \/
       exists path, storage = storage_mapping (feeds_dir_text path)))) /\
  List.NoDup (map fst collectors) /\
  (forall source_name : str,
     ~ In source_name (map fst collectors) ->
     snd result !! source_name = None) /\
  (forall source_name : str,
     is_enabled data_sources_config source_name = false ->
     ~ In source_name (map fst collectors)).
Proof.
  intros collectors result.
  assert (Hnames : map fst collectors
                   = List.filter (fun source_name =>
                                    is_enabled data_sources_config source_name
                                    && constructed storage source_name)
                                 [naver_blog; ajunews_column]).
  { unfold collectors, run_collectors. rewrite List.map_map. cbn [fst].
    rewrite List.map_id. apply initialize_collectors_names. }
  split; [| split; [| split]].
  - exists (is_enabled data_sources_config naver_blog),
           (is_enabled data_sources_config ajunews_column
            && constructed storage ajunews_column).
    split; [| split; [reflexivity |]].
    + rewrite Hnames. cbn [List.filter].
      change (constructed storage naver_blog) with true. rewrite andb_true_r.
      destruct (is_enabled data_sources_config naver_blog),
               (is_enabled data_sources_config ajunews_column
                && constructed storage ajunews_column); reflexivity.
    + rewrite andb_true_iff.
      change (constructed storage ajunews_column)
        with (match ajunews_init storage with Returned _ => true | Raised => false end).
      split; intros [Henabled Hstorage]; (split; [exact Henabled |]).
      * destruct storage as [|[|path|]|]; cbn in Hstorage; try discriminate;
          [left; reflexivity | right; left; reflexivity | right; right; eauto].
      * destruct Hstorage as [-> | [-> | (path & ->)]]; reflexivity.
  - rewrite Hnames. cbn [List.filter].
    pose proof source_names_distinct as Hne.
    destruct (is_enabled data_sources_config naver_blog && constructed storage naver_blog),
             (is_enabled data_sources_config ajunews_column
              && constructed storage ajunews_column);
      repeat constructor; simpl; intuition.
  - intros source_name Hout. subst result. unfold collect_all_sources.
    rewrite collect_loop_stats_other; [apply lookup_empty | exact Hout].
  - intros source_name Hoff. rewrite Hnames. intros Hin.
    apply filter_In in Hin as [_ Hon]. rewrite Hoff in Hon. discriminate Hon.
Qed.

Lemma stamp_other_key (source_name key : str) (post : Post) :
  key <> k_data_source -> key <> k_source_display_name -> key <> k_source ->
  stamp data_sources_config source_name post !! key = post !! key.
Proof.
  intros H1 H2 H3. unfold stamp.
  destruct (_ !! k_source); rewrite ?(lookup_insert_ne _ k_source) by congruence;
    rewrite (lookup_insert_ne _ k_source_display_name) by congruence;
    apply lookup_insert_ne; congruence.
Qed.

(** Stamping a post changes nothing but the three source keys: every
    other key keeps its value, and a [source] the collector has set is
    kept; a post without one gets the display name. *)
Theorem stamp_keeps_post_data (source_name : str) (post : Post) :
  (forall key : str,
     key <> k_data_source -> key <> k_source_display_name -> key <> k_source ->
     stamp data_sources_config source_name post !! key = post !! key) /\
  (forall value, post !! k_source = Some value ->
     stamp data_sources_config source_name post !! k_source = Some value) /\
  (post !! k_source = None ->
   stamp data_sources_config source_name post !! k_source
   = Some (VStr (source_display_name data_sources_config source_name))).
Proof.
  destruct keys_distinct as (H1 & H2 & H3).
  split; [intros key; apply stamp_other_key |].
  assert (Hlookup :
    (<[k_source_display_name := VStr (source_display_name data_sources_config source_name)]>
       (<[k_data_source := VStr source_name]> post)) !! k_source = post !! k_source).
  { rewrite !lookup_insert_ne by congruence. reflexivity. }
  unfold stamp. rewrite Hlookup. split.
  - intros value Hvalue. rewrite Hvalue, Hlookup. exact Hvalue.
  - intros Hnone. rewrite Hnone. apply lookup_insert_eq.
Qed.

Lemma stats_total_insert (source_stats : gmap str Z) (source_name : str) (count : Z) :
  source_stats !! source_name = None ->
  stats_total (<[source_name := count]> source_stats)
  = (count + stats_total source_stats)%Z.
Proof.
  intros Hfresh. unfold stats_total.
  apply (map_fold_insert_L (fun _ (count : Z) (total : Z) => (count + total)%Z));
    [| exact Hfresh].
  intros. lia.
Qed.

Lemma collect_loop_total (collectors : list (str * outcome (list Post))) :
  forall (all_posts : list Post) (source_stats : gmap str Z),
  List.NoDup (map fst collectors) ->
  (forall source_name, In source_name (map fst collectors) ->
     source_stats !! source_name = None) ->
  let result :=
    fold_left (collect_step data_sources_config) collectors (all_posts, source_stats) in
  (stats_total (snd result) - stats_total source_stats
   = Z.of_nat (length (fst result)) - Z.of_nat (length all_posts))%Z.
Proof.
  induction collectors as [|[source_name outcome_of_source] rest IH];
    intros all_posts source_stats Hnodup Hfresh; cbn [fold_left].
  - cbn [fst snd]. lia.
  - simpl in Hnodup. apply List.NoDup_cons_iff in Hnodup as [Hnew Hnodup].
    rewrite collect_step_eq. cbn [fst snd].
    assert (Hrest : forall other, In other (map fst rest) ->
              (<[source_name := collected outcome_of_source]> source_stats) !! other = None).
    { intros other Hother. rewrite lookup_insert_ne.
      - apply Hfresh. right. exact Hother.
      - intros <-. contradiction. }
    pose proof (IH (all_posts ++ contribution data_sources_config
                                   (source_name, outcome_of_source))
                   (<[source_name := collected outcome_of_source]> source_stats)
                   Hnodup Hrest) as Htotal.
    cbv zeta in Htotal.
    rewrite stats_total_insert in Htotal by (apply Hfresh; left; reflexivity).
    rewrite length_app in Htotal.
    assert (Hcount : Z.of_nat (length (contribution data_sources_config
                                         (source_name, outcome_of_source)))
                     = collected outcome_of_source).
    { unfold contribution, collected. cbn [fst snd].
      destruct outcome_of_source as [posts|]; [rewrite length_map |]; reflexivity. }
    lia.
Qed.

(** The total of the run is the sum of the per-source counts: the number
    of aggregated posts equals the sum of the values of [source_stats]. *)
Theorem total_count_is_sum_of_stats (collectors : list (str * outcome (list Post))) :
  List.NoDup (map fst collectors) ->
  let result := collect_all_sources data_sources_config collectors in
  stats_total (snd result) = Z.of_nat (length (fst result)).
Proof.
  intros Hnodup result. subst result. unfold collect_all_sources.
  assert (Hempty : forall source_name : str,
            In source_name (map fst collectors) ->
            (∅ : gmap str Z) !! source_name = None)
    by (intros; apply lookup_empty).
  pose proof (collect_loop_total collectors [] ∅ Hnodup Hempty) as Htotal.
  cbv zeta in Htotal.
  assert (Hzero : stats_total ∅ = 0%Z) by (unfold stats_total; apply map_fold_empty).
  rewrite Hzero in Htotal. simpl length in Htotal. lia.
Qed.

End Facts.

Lemma total_count_is_sum_of_stats_witness :
  List.NoDup (map fst sample_collectors) /\
  stats_total (snd (collect_all_sources sample_config sample_collectors))
  = Z.of_nat (length (fst (collect_all_sources sample_config sample_collectors))).
Proof.
  assert (Hnodup : List.NoDup (map fst sample_collectors)).
  { simpl. constructor.
    - vm_compute. intros [H | []]. discriminate H.
    - constructor; [intros [] | constructor]. }
  split; [exact Hnodup |].
  exact (total_count_is_sum_of_stats sample_config sample_collectors Hnodup).
Defined.

(** Only the column source is enabled: it alone is run. *)
Example initialize_sample :
  _initialize_collectors
    {[ naver_blog := mkSourceConfig false (Some (u8 "blog"));
       ajunews_column := mkSourceConfig true None ]} false storage_absent
  = [ajunews_column].
Proof. vm_compute. reflexivity. Qed.

(** With [storage: None] the constructor of the column source raises:
    the source is enabled and yet not run. *)
Example enabled_source_left_out :
  _initialize_collectors sample_config false storage_other = [naver_blog] /\
  _initialize_collectors sample_config false (storage_mapping feeds_dir_other)
  = [naver_blog] /\
  _initialize_collectors sample_config false (storage_mapping (feeds_dir_text (u8 "data")))
  = [naver_blog; ajunews_column].
Proof. vm_compute. repeat split; reflexivity. Qed.

End MultiSourceMore.


(* ================================================================== *)
(** * report_generator.py: category order, sorting, completeness       *)
(* ================================================================== *)

Module ReportMore.

Import Report.
Import CollectorMore.
Import AnalyzerMore.

(** A report with one category outside the canonical list. *)
Definition sample_categorized : list (str * list Post) :=
  [ (u8 "기타", [post_odd_date]); (u8 "특집", [post_jan6]);
    (u8 "AI 기술", [post_dec30; post_odd_date; post_jan6]); (u8 "과학 기술", []) ].

(** ** Facts *)

Lemma category_order_nodup : List.NoDup category_order.
Proof.
  repeat (constructor; [vm_compute; intuition discriminate |]). constructor.
Qed.

Lemma has_key_in (key : str) (categorized_posts : list (str * list Post)) :
  has_key key categorized_posts = true <-> In key (map fst categorized_posts).
Proof.
  unfold has_key. rewrite existsb_exists, in_map_iff. split.
  - intros (entry & Hin & Heq). apply str_eqb_eq in Heq. eauto.
  - intros (entry & Heq & Hin). exists entry. split; [exact Hin |].
    apply str_eqb_eq. exact Heq.
Qed.

Lemma listed_in (key : str) :
  existsb (str_eqb key) category_order = true <-> In key category_order.
Proof.
  rewrite existsb_exists. split.
  - intros (other & Hin & Heq). apply str_eqb_eq in Heq as ->. exact Hin.
  - intros Hin. exists key. split; [exact Hin | apply str_eqb_eq; reflexivity].
Qed.

Lemma unlisted_not_in_order (keys : list str) :
  Forall (fun key => ~ In key category_order)
         (List.filter (fun category => negb (existsb (str_eqb category) category_order))
                      keys).
Proof.
  apply List.Forall_forall. intros key Hkey.
  apply filter_In in Hkey as [_ Hkey]. apply negb_true_iff in Hkey.
  intros Hin. apply listed_in in Hin. congruence.
Qed.

Lemma sorted_categories_keys (categorized_posts : list (str * list Post)) :
  List.NoDup (map fst categorized_posts) ->
  Permutation (sorted_categories categorized_posts) (map fst categorized_posts).
Proof.
  intros Hnodup. unfold sorted_categories.
  pose proof (unlisted_not_in_order (map fst categorized_posts)) as Hunlisted.
  apply Permutation.NoDup_Permutation; [| exact Hnodup |].
  - apply List.NoDup_app.
    + apply List.NoDup_filter, category_order_nodup.
    + apply List.NoDup_filter, Hnodup.
    + intros key Hin Hin'. apply filter_In in Hin as [Hin _].
      rewrite List.Forall_forall in Hunlisted. exact (Hunlisted key Hin' Hin).
  - intros key. rewrite in_app_iff, !filter_In, has_key_in, negb_true_iff. split.
    + intros [[_ H] | [H _]]; exact H.
    + intros Hkey. destruct (existsb (str_eqb key) category_order) eqn:Hlisted.
      * left. split; [apply listed_in, Hlisted | exact Hkey].
      * right. split; [exact Hkey | reflexivity].
Qed.

(** The order in which the categories are rendered: first the categories
    of the canonical list that the dict has, in canonical order, then the
    remaining keys in dict order; every key of the dict occurs exactly
    once. *)
Theorem sorted_categories_permutation (categorized_posts : list (str * list Post)) :
  List.NoDup (map fst categorized_posts) ->
  exists canonical unlisted,
    sorted_categories categorized_posts = canonical ++ unlisted /\
    subsequence canonical category_order /\
    subsequence unlisted (map fst categorized_posts) /\
    Forall (fun key => ~ In key category_order) unlisted /\
    Permutation (sorted_categories categorized_posts) (map fst categorized_posts).
Proof.
  intros Hnodup.
  exists (List.filter (fun category => has_key category categorized_posts) category_order),
         (List.filter (fun category => negb (existsb (str_eqb category) category_order))
                      (map fst categorized_posts)).
  split; [reflexivity |].
  split; [apply subsequence_filter |]. split; [apply subsequence_filter |].
  split; [apply unlisted_not_in_order | apply sorted_categories_keys, Hnodup].
Qed.

Lemma sorted_categories_permutation_witness :
  List.NoDup (map fst sample_categorized) /\
  exists canonical unlisted,
    sorted_categories sample_categorized = canonical ++ unlisted /\
    subsequence canonical category_order /\
    subsequence unlisted (map fst sample_categorized) /\
    Forall (fun key => ~ In key category_order) unlisted /\
    Permutation (sorted_categories sample_categorized) (map fst sample_categorized).
Proof.
  assert (Hnodup : List.NoDup (map fst sample_categorized)).
  { repeat (constructor; [vm_compute; intuition discriminate |]). constructor. }
  split; [exact Hnodup |].
  exact (sorted_categories_permutation sample_categorized Hnodup).
Defined.

Section SortFacts.

Variable parse : str -> option datetime.

Lemma sort_loop_same_kind items : forall sorted kind,
  Forall (fun entry => aware (fst entry) = kind) items ->
  Forall (fun entry => aware (fst entry) = kind) sorted ->
  exists out, sort_loop items sorted = Returned out.
Proof.
  induction items as [|[key_x x] items IH]; intros sorted kind Hitems Hsorted; simpl.
  - eauto.
  - apply List.Forall_cons_iff in Hitems as [Hx Hitems]. simpl in Hx.
    destruct (insert_desc_same_kind key_x x sorted) as (sorted' & -> & _ & Hsorted').
    { rewrite Hx. exact Hsorted. }
    apply (IH sorted' kind Hitems). rewrite <- Hx. exact Hsorted'.
Qed.

(** The sort by date raises exactly when the category holds a post whose
    date key carries a UTC offset together with one whose key does not
    (an unparseable date counts as the naive [datetime.min]). *)
Theorem sorted_by_date_desc_raises_iff (posts : list Post) :
  sorted_by_date_desc parse posts = Raised <->
  exists p q, In p posts /\ In q posts /\
              aware (date_key parse p) = true /\ aware (date_key parse q) = false.
Proof.
  split.
  - intros Hraised.
    destruct (forallb (fun p => aware (date_key parse p)) posts) eqn:Hall_aware.
    + exfalso. rewrite forallb_forall in Hall_aware.
      destruct (sort_loop_same_kind
                  (map (fun p => (_parse_date parse (get (published p) []), p)) posts)
                  [] true) as (out & Hout).
      * rewrite List.Forall_map. apply List.Forall_forall. exact Hall_aware.
      * constructor.
      * unfold sorted_by_date_desc in Hraised. rewrite Hout in Hraised. discriminate.
    + destruct (forallb (fun p => negb (aware (date_key parse p))) posts) eqn:Hall_naive.
      * exfalso. rewrite forallb_forall in Hall_naive.
        destruct (sort_loop_same_kind
                    (map (fun p => (_parse_date parse (get (published p) []), p)) posts)
                    [] false) as (out & Hout).
        -- rewrite List.Forall_map. apply List.Forall_forall. intros p Hp.
           apply negb_true_iff. exact (Hall_naive p Hp).
        -- constructor.
        -- unfold sorted_by_date_desc in Hraised. rewrite Hout in Hraised. discriminate.
      * assert (Hq : exists q, In q posts /\ aware (date_key parse q) = false).
        { clear -Hall_aware. induction posts as [|q posts IH]; [discriminate |].
          simpl in Hall_aware. apply andb_false_iff in Hall_aware as [H | H].
          - exists q. split; [left; reflexivity | exact H].
          - destruct (IH H) as (q' & Hin & Hq'). exists q'. split; [right |]; assumption. }
        assert (Hp : exists p, In p posts /\ aware (date_key parse p) = true).
        { clear -Hall_naive. induction posts as [|p posts IH]; [discriminate |].
          simpl in Hall_naive. apply andb_false_iff in Hall_naive as [H | H].
          - exists p. split; [left; reflexivity | apply negb_false_iff, H].
          - destruct (IH H) as (p' & Hin & Hp'). exists p'. split; [right |]; assumption. }
        destruct Hp as (p & Hp & Hpa), Hq as (q & Hq & Hqn). eauto 10.
  - intros (p & q & Hp & Hq & Hpa & Hqn).
    exact (sorted_by_date_desc_mixed_raises parse posts p q Hp Hq Hpa Hqn).
Qed.

(** The entries of a sorted list whose key reads [w]. *)
Definition at_time (w : Z) (entry : datetime * Post) : bool := (wall (fst entry) =? w)%Z.

Lemma insert_desc_stable (w : Z) key_x x sorted :
  utcoffset key_x = None -> all_naive sorted -> StronglySorted newer_first sorted ->
  forall sorted', insert_desc key_x x sorted = Returned sorted' ->
  List.filter (at_time w) sorted'
  = List.filter (at_time w) sorted ++ List.filter (at_time w) [(key_x, x)].
Proof.
  intros Hx. induction sorted as [|[key_y y] rest IH];
    intros Hnaive Hsorted sorted' Hinsert; simpl in Hinsert.
  - injection Hinsert as <-. reflexivity.
  - apply List.Forall_cons_iff in Hnaive as [Hy Hnaive]. simpl in Hy.
    apply StronglySorted_inv in Hsorted as [Hsorted Hall].
    unfold dt_lt in Hinsert. rewrite Hy, Hx in Hinsert.
    destruct (Z.ltb_spec (wall key_y) (wall key_x)) as [Hlt | Hge].
    + injection Hinsert as <-.
      change ((key_x, x) :: (key_y, y) :: rest)
        with ([(key_x, x)] ++ (key_y, y) :: rest).
      rewrite List.filter_app.
      destruct (Z.eqb_spec (wall key_x) w) as [Hw | Hw].
      * assert (Hnone : List.filter (at_time w) ((key_y, y) :: rest) = []).
        { apply filter_nil. intros entry [<- | Hin]; unfold at_time; apply Z.eqb_neq.
          - simpl. lia.
          - rewrite List.Forall_forall in Hall. specialize (Hall entry Hin).
            unfold newer_first in Hall. simpl in Hall. lia. }
        rewrite Hnone, List.app_nil_r. reflexivity.
      * assert (Hnone : List.filter (at_time w) [(key_x, x)] = []).
        { apply filter_nil. intros entry [<- | []]. unfold at_time.
          apply Z.eqb_neq. exact Hw. }
        rewrite Hnone, List.app_nil_r. reflexivity.
    + destruct (insert_desc key_x x rest) as [rest'|] eqn:Hrest; [| discriminate].
      injection Hinsert as <-.
      change ((key_y, y) :: rest') with ([(key_y, y)] ++ rest').
      change ((key_y, y) :: rest) with ([(key_y, y)] ++ rest).
      rewrite !List.filter_app, (IH Hnaive Hsorted rest' eq_refl), <- !List.app_assoc.
      reflexivity.
Qed.

Lemma sort_loop_stable (w : Z) items : forall sorted,
  all_naive items -> all_naive sorted -> StronglySorted newer_first sorted ->
  forall out, sort_loop items sorted = Returned out ->
  List.filter (at_time w) out
  = List.filter (at_time w) sorted ++ List.filter (at_time w) items.
Proof.
  induction items as [|[key_x x] items IH]; intros sorted Hitems Hnaive Hsorted out Hout;
    simpl in Hout.
  - injection Hout as <-. rewrite List.app_nil_r. reflexivity.
  - apply List.Forall_cons_iff in Hitems as [Hx Hitems]. simpl in Hx.
    destruct (insert_desc_naive key_x x sorted Hx Hnaive Hsorted)
      as (sorted' & Hinsert & _ & Hsorted' & Hnaive').
    rewrite Hinsert in Hout.
    rewrite (IH sorted' Hitems Hnaive' Hsorted' out Hout).
    rewrite (insert_desc_stable w key_x x sorted Hx Hnaive Hsorted sorted' Hinsert).
    change ((key_x, x) :: items) with ([(key_x, x)] ++ items).
    rewrite List.filter_app, <- List.app_assoc. reflexivity.
Qed.

Lemma filter_keyed (w : Z) (items : list (datetime * Post)) :
  Forall (fun entry => fst entry = date_key parse (snd entry)) items ->
  map snd (List.filter (at_time w) items)
  = List.filter (fun p => (wall (date_key parse p) =? w)%Z) (map snd items).
Proof.
  induction 1 as [|entry items Hentry Hitems IH]; [reflexivity |].
  cbn [List.filter map]. unfold at_time at 1. rewrite Hentry, <- IH.
  destruct (wall (date_key parse (snd entry)) =? w)%Z; reflexivity.
Qed.

(** The sort is stable: when no date of the category carries a UTC
    offset, the sort returns, and the posts that share a date (all those
    whose date cannot be parsed, for one) keep their original order. *)
Theorem sorted_by_date_desc_stable (posts : list Post) :
  Forall (fun p => utcoffset (date_key parse p) = None) posts ->
  exists out,
    sorted_by_date_desc parse posts = Returned out /\
    forall w : Z,
      List.filter (fun p => (wall (date_key parse p) =? w)%Z) out
      = List.filter (fun p => (wall (date_key parse p) =? w)%Z) posts.
Proof.
  intros Hnaive. unfold sorted_by_date_desc.
  set (items := map (fun p => (_parse_date parse (get (published p) []), p)) posts).
  assert (Hitems : all_naive items).
  { unfold all_naive, items. rewrite List.Forall_map. exact Hnaive. }
  assert (Hkeys : Forall (fun entry => fst entry = date_key parse (snd entry)) items).
  { unfold items. rewrite List.Forall_map. apply List.Forall_forall. reflexivity. }
  assert (Hposts : map snd items = posts).
  { unfold items. rewrite List.map_map. apply List.map_id. }
  destruct (sort_loop_naive items [] Hitems (List.Forall_nil _) (SSorted_nil _))
    as (out & Hout & Hperm & _).
  rewrite Hout. exists (map snd out). split; [reflexivity |].
  intros w. rewrite List.app_nil_r in Hperm.
  rewrite <- filter_keyed by (apply (Permutation_Forall Hperm); exact Hkeys).
  rewrite (sort_loop_stable w items [] Hitems (List.Forall_nil _) (SSorted_nil _) out Hout).
  cbn [List.filter app]. rewrite filter_keyed by exact Hkeys.
  rewrite Hposts. reflexivity.
Qed.

Lemma lookup_entry (categorized_posts : list (str * list Post)) :
  List.NoDup (map fst categorized_posts) ->
  forall entry, In entry categorized_posts ->
  lookup (fst entry) categorized_posts = snd entry.
Proof.
  induction categorized_posts as [|[key posts] rest IH]; intros Hnodup entry Hin;
    [destruct Hin |].
  simpl in Hnodup. apply List.NoDup_cons_iff in Hnodup as [Hfresh Hnodup].
  cbn [lookup]. destruct Hin as [<- | Hin].
  - cbn [fst snd].
    assert (Hsame : str_eqb key key = true) by (apply str_eqb_eq; reflexivity).
    rewrite Hsame. reflexivity.
  - assert (Hother : str_eqb key (fst entry) = false).
    { apply str_eqb_neq. intros ->. apply Hfresh. apply in_map, Hin. }
    rewrite Hother. apply IH; assumption.
Qed.

Lemma lookup_bucket (categorized_posts : list (str * list Post)) (category : str) :
  lookup category categorized_posts = []
  \/ In (lookup category categorized_posts) (map snd categorized_posts).
Proof.
  induction categorized_posts as [|[key posts] rest IH]; [left; reflexivity |].
  cbn [lookup map snd]. destruct (str_eqb key category).
  - right. left. reflexivity.
  - destruct IH as [H | H]; [left | right; right]; exact H.
Qed.

Lemma flat_map_permutation {A B : Type} (f : A -> list B) (l l' : list A) :
  Permutation l l' -> Permutation (flat_map f l) (flat_map f l').
Proof.
  induction 1 as [|x l l' Hperm IH|x y l|l l' l'' H1 IH1 H2 IH2]; simpl.
  - reflexivity.
  - apply Permutation_app_head, IH.
  - rewrite !List.app_assoc. apply Permutation_app_tail, Permutation_app_comm.
  - rewrite IH1. exact IH2.
Qed.

(** Every post of the dict has a date key without UTC offset. *)
Definition dates_naive (categorized_posts : list (str * list Post)) : Prop :=
  Forall (Forall (fun p => utcoffset (date_key parse p) = None))
         (map snd categorized_posts).

Lemma render_sections_complete (categorized_posts : list (str * list Post)) :
  dates_naive categorized_posts ->
  forall categories,
  exists sections,
    render_sections parse categorized_posts categories = Returned sections /\
    map fst sections
    = List.filter (fun category =>
                     negb (Nat.eqb (length (lookup category categorized_posts)) 0))
                  categories /\
    Forall (fun section =>
              snd section <> [] /\
              Permutation (lookup (fst section) categorized_posts) (snd section) /\
              StronglySorted
                (fun p q => (wall (date_key parse q) <= wall (date_key parse p))%Z)
                (snd section))
           sections /\
    Permutation (concat (map snd sections))
                (flat_map (fun category => lookup category categorized_posts) categories).
Proof.
  intros Hnaive categories.
  induction categories as [|category rest (sections & Hrender & Hnames & Hall & Hperm)].
  - exists []. repeat split; constructor.
  - cbn [render_sections List.filter flat_map].
    destruct (lookup_bucket categorized_posts category) as [Hempty | Hbucket].
    + rewrite Hempty. exists sections. cbn [length Nat.eqb negb app]. auto.
    + destruct (lookup category categorized_posts) as [|p bucket] eqn:Hlookup.
      * exists sections. cbn [length Nat.eqb negb app]. auto.
      * unfold dates_naive in Hnaive. rewrite List.Forall_forall in Hnaive.
        destruct (sorted_by_date_desc_naive parse (p :: bucket) (Hnaive _ Hbucket))
          as (out & -> & Hout & Hsorted).
        rewrite Hrender. exists ((category, out) :: sections).
        split; [reflexivity |]. cbn [length Nat.eqb negb map fst snd concat].
        split; [rewrite Hnames; reflexivity |]. split.
        -- constructor; [| exact Hall]. cbn [fst snd]. rewrite Hlookup.
           split; [| split; assumption].
           intros ->. apply Permutation_length in Hout. discriminate.
        -- apply Permutation_app; [symmetry; exact Hout | exact Hperm].
Qed.

(** With distinct categories and no date carrying a UTC offset, the body
    of the report is produced and is complete: it has one section per
    category that has posts, in the rendering order of the categories,
    each section holds the posts of its category with the newest first,
    and all sections together hold every post of the dict exactly once. *)
Theorem create_report_content_complete (categorized_posts : list (str * list Post)) :
  List.NoDup (map fst categorized_posts) ->
  dates_naive categorized_posts ->
  exists sections,
    _create_report_content parse categorized_posts = Returned sections /\
    map fst sections
    = List.filter (fun category =>
                     negb (Nat.eqb (length (lookup category categorized_posts)) 0))
                  (sorted_categories categorized_posts) /\
    Forall (fun section =>
              snd section <> [] /\
              Permutation (lookup (fst section) categorized_posts) (snd section) /\
              StronglySorted
                (fun p q => (wall (date_key parse q) <= wall (date_key parse p))%Z)
                (snd section))
           sections /\
    Permutation (concat (map snd sections)) (concat (map snd categorized_posts)).
Proof.
  intros Hnodup Hnaive. unfold _create_report_content.
  destruct (render_sections_complete categorized_posts Hnaive
              (sorted_categories categorized_posts))
    as (sections & Hrender & Hnames & Hall & Hperm).
  exists sections. split; [exact Hrender |]. split; [exact Hnames |].
  split; [exact Hall |].
  rewrite Hperm, (flat_map_permutation _ _ _ (sorted_categories_keys _ Hnodup)).
  rewrite List.flat_map_concat_map, List.map_map.
  assert (Hsame : map (fun entry => lookup (fst entry) categorized_posts) categorized_posts
                  = map snd categorized_posts).
  { apply List.map_ext_in. intros entry Hin. apply lookup_entry; assumption. }
  rewrite Hsame. reflexivity.
Qed.

End SortFacts.

Lemma create_report_content_complete_witness :
  List.NoDup (map fst sample_categorized) /\
  dates_naive Collector.sample_parse sample_categorized /\
  exists sections,
    _create_report_content Collector.sample_parse sample_categorized = Returned sections /\
    map fst sections
    = List.filter (fun category =>
                     negb (Nat.eqb (length (lookup category sample_categorized)) 0))
                  (sorted_categories sample_categorized) /\
    Forall (fun section =>
              snd section <> [] /\
              Permutation (lookup (fst section) sample_categorized) (snd section) /\
              StronglySorted
                (fun p q => (wall (date_key Collector.sample_parse q)
                             <= wall (date_key Collector.sample_parse p))%Z)
                (snd section))
           sections /\
    Permutation (concat (map snd sections)) (concat (map snd sample_categorized)).
Proof.
  assert (Hnodup : List.NoDup (map fst sample_categorized)).
  { repeat (constructor; [vm_compute; intuition discriminate |]). constructor. }
  assert (Hnaive : dates_naive Collector.sample_parse sample_categorized)
    by (repeat constructor).
  split; [exact Hnodup |]. split; [exact Hnaive |].
  exact (create_report_content_complete Collector.sample_parse sample_categorized
           Hnodup Hnaive).
Defined.

Lemma sorted_by_date_desc_stable_witness :
  Forall (fun p => utcoffset (date_key Collector.sample_parse p) = None)
         [post_dec30; post_odd_date; post_jan6; post_odd_date] /\
  exists out,
    sorted_by_date_desc Collector.sample_parse
      [post_dec30; post_odd_date; post_jan6; post_odd_date] = Returned out /\
    forall w : Z,
      List.filter (fun p => (wall (date_key Collector.sample_parse p) =? w)%Z) out
      = List.filter (fun p => (wall (date_key Collector.sample_parse p) =? w)%Z)
                    [post_dec30; post_odd_date; post_jan6; post_odd_date].
Proof.
  assert (Hnaive : Forall (fun p => utcoffset (date_key Collector.sample_parse p) = None)
                          [post_dec30; post_odd_date; post_jan6; post_odd_date])
    by (repeat constructor).
  split; [exact Hnaive |].
  exact (sorted_by_date_desc_stable Collector.sample_parse _ Hnaive).
Defined.

End ReportMore.


(* ================================================================== *)
(** * services/analyzer.py: the prompt length guard                    *)
(* ================================================================== *)

Module Services.

(** The marker appended to a shortened text: two line feeds and
    "... (이하 생략)". *)
Definition omitted_marker : str := [10; 10]%N ++ u8 "... (이하 생략)".

(** [_truncate_text(text, max_chars)] *)
Definition _truncate_text (text : str) (max_chars : Z) : str :=
  if (max_chars <? len text)%Z then slice_to text max_chars ++ omitted_marker
  else text.

(** The default of [max_chars]. *)
Definition default_max_chars : Z := 12000.

(** ** Facts *)

Example truncate_short : _truncate_text (u8 "ab") 5 = u8 "ab".
Proof. reflexivity. Qed.

Example truncate_negative_bound :
  _truncate_text (u8 "abcdef") (-2) = u8 "abcd" ++ omitted_marker.
Proof. reflexivity. Qed.

(** With a non-negative bound the result is never longer than the bound
    plus the 13 characters of the marker; a text within the bound is
    returned unchanged, a longer one keeps exactly its first [max_chars]
    characters before the marker. *)
Theorem truncate_text_bounded (text : str) (max_chars : Z) :
  (0 <= max_chars)%Z ->
  (len (_truncate_text text max_chars) <= max_chars + 13)%Z /\
  ((len text <= max_chars)%Z -> _truncate_text text max_chars = text) /\
  ((max_chars < len text)%Z ->
   _truncate_text text max_chars = firstn (Z.to_nat max_chars) text ++ omitted_marker /\
   length (firstn (Z.to_nat max_chars) text) = Z.to_nat max_chars).
Proof.
  intros Hmax. unfold _truncate_text, slice_to, len.
  destruct (Z.leb_spec 0 max_chars) as [_ | H]; [| lia].
  destruct (Z.ltb_spec max_chars (Z.of_nat (length text))) as [Hlong | Hshort].
  - split; [| split; [lia |]].
    + rewrite length_app, length_firstn.
      change (length omitted_marker) with 13%nat. lia.
    + intros _. split; [reflexivity |]. rewrite length_firstn. lia.
  - split; [lia |]. split; [reflexivity | lia].
Qed.

Lemma truncate_text_bounded_witness :
  (0 <= 3)%Z /\
  (len (_truncate_text (u8 "abcdef") 3) <= 3 + 13)%Z /\
  ((len (u8 "abcdef") <= 3)%Z -> _truncate_text (u8 "abcdef") 3 = u8 "abcdef") /\
  ((3 < len (u8 "abcdef"))%Z ->
   _truncate_text (u8 "abcdef") 3
   = firstn (Z.to_nat 3) (u8 "abcdef") ++ omitted_marker /\
   length (firstn (Z.to_nat 3) (u8 "abcdef")) = Z.to_nat 3).
Proof.
  split; [lia |]. apply (truncate_text_bounded (u8 "abcdef") 3). lia.
Defined.

End Services.
